(** * random-streams-arcsine: option validation and shared generator state

    A shallow embedding of [lib/validate.js] (the option validator of the
    arcsine random-number stream) together with the state replacement
    contract of the underlying generator, and the theorems that relate
    them to the package's written specification.

    JavaScript objects are finite maps from property names to values
    ([gmap string value]); numbers are IEEE 754 doubles in the
    sign/mantissa/exponent form of [spec_float]; the destination object
    [opts], which [validate] mutates, is threaded explicitly through the
    statements of the function.  The destination is taken to be an
    ordinary extensible object whose properties are data properties, so
    that reading a key back after an assignment yields the value
    assigned. *)

From Stdlib Require Import ZArith Floats.SpecFloat.
From stdpp Require Import gmap strings list fin_maps.

Set Warnings "-register-all".
Open Scope Z_scope.

(** ** JavaScript values *)

Module Js.

(** What kind of object a reference points to.  [ClsObject] is an object
    literal (prototype [Object.prototype] or [null]); the other classes
    are the non-plain objects an option can hold. *)
Inductive obj_class :=
| ClsObject
| ClsArray
| ClsFunction
| ClsString
| ClsNumber
| ClsBoolean
| ClsUint32Array
| ClsInstance.

(** A value: the primitives, and objects with their class and their own
    properties. *)
Inductive value :=
| VUndefined
| VNull
| VBoolean (b : bool)
| VNumber (x : spec_float)
| VString (s : string)
| VObject (c : obj_class) (own : gmap string value).

(** [o.k] on a record of own data properties. *)
Definition prop (o : gmap string value) (k : string) : value :=
  default VUndefined (o !! k).

(** [v.k] on a value; only own properties are modelled. *)
Definition member (v : value) (k : string) : value :=
  match v with
  | VObject _ own => prop own k
  | _ => VUndefined
  end.

(** [v !== null]. *)
Definition not_null (v : value) : bool :=
  match v with VNull => false | _ => true end.

(** The double closest to the integer [z], and to [m * 2^e]. *)
Definition num (z : Z) : spec_float := binary_normalize 53 1024 z 0 false.
Definition dyadic (m e : Z) : spec_float := binary_normalize 53 1024 m e false.

(** The mathematical integer a double stands for, when it stands for one:
    [denotes_int x n] says that the exact value of [x] is [n]. *)
Definition denotes_int (x : spec_float) (n : Z) : Prop :=
  match x with
  | S754_zero _ => n = 0
  | S754_finite s m e =>
      cond_Zopp s (Z.pos m) * 2 ^ Z.max 0 e = n * 2 ^ Z.max 0 (- e)
  | _ => False
  end.

End Js.
Export Js.

(** ** The assertion helpers [validate] requires *)

Module Assert.

(** Modelled from the spec: [@stdlib/assert-is-plain-object] is required by
    [validate.js] and is not part of the package's sources; the spec calls
    its argument a "raw configuration mapping".  An object literal is
    plain, every primitive and every other object is not. *)
Definition isObject (v : value) : bool :=
  match v with
  | VObject ClsObject _ => true
  | _ => false
  end.

(** Modelled from the spec: [@stdlib/assert-has-own-property] is not part
    of the package's sources; the spec speaks of fields "present" in the
    mapping.  Only objects carry own properties here. *)
Definition hasOwnProp (v : value) (k : string) : bool :=
  match v with
  | VObject _ own => bool_decide (is_Some (own !! k))
  | _ => false
  end.

(** Modelled from the spec: [@stdlib/assert-is-string].isPrimitive is not
    part of the package's sources; the spec's "text". *)
Definition isString (v : value) : bool :=
  match v with VString _ => true | _ => false end.

(** Modelled from the spec: [@stdlib/assert-is-boolean].isPrimitive is not
    part of the package's sources; the spec's "boolean". *)
Definition isBoolean (v : value) : bool :=
  match v with VBoolean _ => true | _ => false end.

(** [x >= 0.0] and [x > 0.0] on doubles. *)
Definition geq_zero (x : spec_float) : bool := SFleb (S754_zero false) x.
Definition gt_zero (x : spec_float) : bool := SFltb (S754_zero false) x.

(** A finite double with no fractional part: the mantissa has no bit
    below the binary point. *)
Definition isInt (x : spec_float) : bool :=
  match x with
  | S754_zero _ => true
  | S754_finite _ m e => (0 <=? e) || (Z.pos m mod 2 ^ (- e) =? 0)
  | _ => false
  end.

(** Modelled from the spec: [@stdlib/assert-is-nonnegative-number].isPrimitive
    is not part of the package's sources; the spec's "non-negative number",
    failing when "negative or non-numeric". *)
Definition isNonNegative (v : value) : bool :=
  match v with VNumber x => geq_zero x | _ => false end.

(** Modelled from the spec: [@stdlib/assert-is-nonnegative-integer].isPrimitive
    is not part of the package's sources; the spec's "non-negative integer". *)
Definition isNonNegativeInteger (v : value) : bool :=
  match v with VNumber x => isInt x && geq_zero x | _ => false end.

(** Modelled from the spec: [@stdlib/assert-is-positive-integer].isPrimitive
    is not part of the package's sources; the spec's "positive integer". *)
Definition isPositiveInteger (v : value) : bool :=
  match v with VNumber x => isInt x && gt_zero x | _ => false end.

End Assert.
Export Assert.

(** ** Errors *)

(** Modelled from the spec: [@stdlib/error-tools-fmtprodmsg] is not part of
    the package's sources.  A message is kept as the call that builds it:
    the message code and the arguments interpolated into it ("validation
    errors name the offending field and the value received"). *)
Record message := format { msg_code : string; msg_args : list value }.

Inductive error :=
| Error (m : message)
| TypeError (m : message)
| RangeError (m : message).

(** ** [validate] *)

Module Validate.

(** A statement of the function body runs on the destination object and
    either falls through ([None]) or returns an error. *)
Definition stmt := gmap string value → gmap string value * option error.

Definition Seq (s1 s2 : stmt) : stmt :=
  λ opts, match s1 opts with
          | (opts', None) => s2 opts'
          | (opts', Some e) => (opts', Some e)
          end.

Definition If (c : gmap string value → bool) (s : stmt) : stmt :=
  λ opts, if c opts then s opts else (opts, None).

Definition Assign (k : string) (v : value) : stmt :=
  λ opts, (<[k:=v]> opts, None).

Definition Return (e : gmap string value → error) : stmt :=
  λ opts, (opts, Some (e opts)).

Definition ReturnNull : stmt := λ opts, (opts, None).

#[local] Notation "s1 ;; s2" := (Seq s1 s2) (at level 100, s2 at level 200, right associativity).

(** [validate( opts, options )]: the destination object after the call and
    the returned value ([None] is [null]). *)
Definition validate (opts : gmap string value) (options : value)
  : gmap string value * option error :=
  ( If (λ _, negb (isObject options)) (
      Return (λ _, TypeError (format "0qh2V,FD" [options]))) ;;
    If (λ _, hasOwnProp options "sep") (
      Assign "sep" (member options "sep") ;;
      If (λ opts, negb (isString (prop opts "sep"))) (
        Return (λ opts, TypeError (format "0qh2W,Gh" [VString "sep"; prop opts "sep"])))) ;;
    If (λ _, hasOwnProp options "objectMode") (
      Assign "objectMode" (member options "objectMode") ;;
      If (λ opts, negb (isBoolean (prop opts "objectMode"))) (
        Return (λ opts, TypeError (format "0qh2o,GE" [VString "objectMode"; prop opts "objectMode"])))) ;;
    If (λ _, hasOwnProp options "encoding") (
      Assign "encoding" (member options "encoding") ;;
      If (λ opts, negb (isString (prop opts "encoding"))
                  && not_null (prop opts "encoding")) (
        Return (λ opts, TypeError (format "0qh7n,Ny" [VString "encoding"; prop opts "encoding"])))) ;;
    If (λ _, hasOwnProp options "highWaterMark") (
      Assign "highWaterMark" (member options "highWaterMark") ;;
      If (λ opts, negb (isNonNegative (prop opts "highWaterMark"))) (
        Return (λ opts, TypeError (format "0qh4k,I9" [VString "highWaterMark"; prop opts "highWaterMark"])))) ;;
    If (λ _, hasOwnProp options "iter") (
      Assign "iter" (member options "iter") ;;
      If (λ opts, negb (isNonNegativeInteger (prop opts "iter"))) (
        Return (λ opts, TypeError (format "0qh2t,G9" [VString "iter"; prop opts "iter"])))) ;;
    If (λ _, hasOwnProp options "siter") (
      Assign "siter" (member options "siter") ;;
      If (λ opts, negb (isPositiveInteger (prop opts "siter"))) (
        Return (λ opts, TypeError (format "0qh3P,Fv" [VString "siter"; prop opts "siter"])))) ;;
    If (λ _, hasOwnProp options "prng") (
      Assign "prng" (member options "prng")) ;;
    If (λ _, hasOwnProp options "seed") (
      Assign "seed" (member options "seed")) ;;
    If (λ _, hasOwnProp options "state") (
      Assign "state" (member options "state")) ;;
    If (λ _, hasOwnProp options "copy") (
      Assign "copy" (member options "copy")) ;;
    ReturnNull ) opts.

End Validate.
Export Validate.

(** ** The body of [validate] as a table of checks

    On an object literal the body is six blocks of the same shape (copy the
    field, test it, return on failure) followed by four plain copies.  The
    table below lists them in source order; [validate_plain] shows that
    running the table is what [validate] does. *)

Module Fields.

(** A validated field: its key, the condition under which the source
    returns an error, and the message code of that error. *)
Record check := Check {
  ck_key : string;
  ck_fails : value → bool;
  ck_code : string
}.

Definition sep_check : check :=
  Check "sep" (λ v, negb (isString v)) "0qh2W,Gh".
Definition objectMode_check : check :=
  Check "objectMode" (λ v, negb (isBoolean v)) "0qh2o,GE".
Definition encoding_check : check :=
  Check "encoding" (λ v, negb (isString v) && not_null v) "0qh7n,Ny".
Definition highWaterMark_check : check :=
  Check "highWaterMark" (λ v, negb (isNonNegative v)) "0qh4k,I9".
Definition iter_check : check :=
  Check "iter" (λ v, negb (isNonNegativeInteger v)) "0qh2t,G9".
Definition siter_check : check :=
  Check "siter" (λ v, negb (isPositiveInteger v)) "0qh3P,Fv".

(** The validated fields, in the order of the source. *)
Definition checked_fields : list check :=
  [sep_check; objectMode_check; encoding_check; highWaterMark_check;
   iter_check; siter_check].

Definition passthrough_fields : list string := ["prng"; "seed"; "state"; "copy"].

Definition checked_keys : list string := ck_key <$> checked_fields.

Definition recognized_keys : list string := checked_keys ++ passthrough_fields.

(** The error returned for field [c] holding [v]. *)
Definition field_error (c : check) (v : value) : error :=
  TypeError (format (ck_code c) [VString (ck_key c); v]).

(** [c] is present in [props] with a value failing its check. *)
Definition field_fails (props : gmap string value) (c : check) : Prop :=
  ∃ v, props !! ck_key c = Some v ∧ ck_fails c v = true.

(** [c] is absent from [props] or holds a value passing its check. *)
Definition field_passes (props : gmap string value) (c : check) : Prop :=
  ∀ v, props !! ck_key c = Some v → ck_fails c v = false.

(** Copy key [k] from [props] into [opts] when it is present. *)
Definition copy_key (props opts : gmap string value) (k : string)
  : gmap string value :=
  match props !! k with
  | Some v => <[k:=v]> opts
  | None => opts
  end.

Definition copy_keys (ks : list string) (props opts : gmap string value)
  : gmap string value :=
  foldl (copy_key props) opts ks.

(** Run the checks in order, stopping at the first failure. *)
Fixpoint run_checks (cs : list check) (props opts : gmap string value)
  : gmap string value * option error :=
  match cs with
  | [] => (opts, None)
  | c :: cs' =>
      match props !! ck_key c with
      | None => run_checks cs' props opts
      | Some v =>
          if ck_fails c v
          then (<[ck_key c:=v]> opts, Some (field_error c v))
          else run_checks cs' props (<[ck_key c:=v]> opts)
      end
  end.

(** What key [k] holds once it has been copied from [props] over [opts]. *)
Definition copied (props opts : gmap string value) (k : string) : option value :=
  match props !! k with
  | Some v => Some v
  | None => opts !! k
  end.

(** The type conditions in the words of the specification. *)
Definition spec_valid (props : gmap string value) : Prop :=
  (∀ v, props !! "sep" = Some v → isString v = true)
  ∧ (∀ v, props !! "objectMode" = Some v → isBoolean v = true)
  ∧ (∀ v, props !! "encoding" = Some v → isString v = true ∨ v = VNull)
  ∧ (∀ v, props !! "highWaterMark" = Some v → isNonNegative v = true)
  ∧ (∀ v, props !! "iter" = Some v → isNonNegativeInteger v = true)
  ∧ (∀ v, props !! "siter" = Some v → isPositiveInteger v = true).

(** The own properties of [props] under the ten recognized keys. *)
Definition recognized_part (props : gmap string value) : gmap string value :=
  filter (λ kv, kv.1 ∈ recognized_keys) props.

End Fields.
Export Fields.

(** ** Sample option objects *)

Module Samples.

(** [{ encoding: 5, iter: -1, prng: null }]: two invalid fields. *)
Definition two_invalid : gmap string value :=
  <["prng" := VNull]>
    (<["iter" := VNumber (num (-1))]> {["encoding" := VNumber (num 5)]}).

(** [{ sep: 5 }]: an invalid separator. *)
Definition bad_sep : gmap string value := {["sep" := VNumber (num 5)]}.

(** [{ sep: 5, prng: function(){} }]: an invalid separator next to a
    pass-through field. *)
Definition bad_sep_with_prng : gmap string value :=
  <["prng" := VObject ClsFunction ∅]> bad_sep.

(** [{ sep: ',', iter: 10, seed: 1234, copy: false, extra: true }]: valid
    fields, pass-through fields and an unrecognized key. *)
Definition good_options : gmap string value :=
  <["extra" := VBoolean true]>
    (<["copy" := VBoolean false]>
       (<["seed" := VNumber (num 1234)]>
          (<["iter" := VNumber (num 10)]> {["sep" := VString ","]}))).

(** [{ iter: 0 }]. *)
Definition iter_zero : gmap string value := {["iter" := VNumber (num 0)]}.

(** [{ sep: ',', encoding: undefined }]. *)
Definition encoding_undefined : gmap string value :=
  <["encoding" := VUndefined]> {["sep" := VString ","]}.

(** [{ objectMode: true, highWaterMark: 64, siter: 10 }]. *)
Definition stream_options : gmap string value :=
  <["siter" := VNumber (num 10)]>
    (<["highWaterMark" := VNumber (num 64)]> {["objectMode" := VBoolean true]}).

(** [{ sep: ',', iter: undefined }]: a key present and holding
    [undefined]. *)
Definition iter_undefined : gmap string value :=
  <["iter" := VUndefined]> {["sep" := VString ","]}.

(** [{ sep: ',', encoding: 'utf8', iter: 10 }]. *)
Definition encoding_utf8 : gmap string value :=
  <["iter" := VNumber (num 10)]>
    (<["encoding" := VString "utf8"]> {["sep" := VString ","]}).

End Samples.
Export Samples.

(** ** The generator state manager *)

Module Prng.

(** State buffers live in a store and are held by reference, so that two
    managers can hold the same buffer. *)
Abbreviation loc := positive (only parsing).
Abbreviation buffer := (list Z) (only parsing).
Abbreviation store := (gmap positive (list Z)) (only parsing).

(** Modelled from the spec: the ownership tag of a state handle.  The
    generator (the base PRNG package and [lib/main.js], which forwards the
    [state] property to it) is not part of the sources at hand; the spec
    has a manager own a buffer exclusively or hold a shared reference. *)
Inductive ownership := Exclusive | Shared.

(** Modelled from the spec: a manager holds a reference to its state
    buffer, the ownership tag and the [copy] flag it was built with. *)
Record manager := Manager {
  m_state : loc;
  m_own : ownership;
  m_copy : bool
}.

(** Modelled from the spec: "copied element-wise".  The first [n] elements
    of [x] are written, one index at a time, into [y]. *)
Fixpoint gcopy (n : nat) (x y : buffer) : buffer :=
  match n with
  | O => y
  | S n' =>
      let y' := gcopy n' x y in
      match x !! n' with
      | Some v => <[n':=v]> y'
      | None => y'
      end
  end.

(** A fresh buffer holding the contents of [b]. *)
Definition clone (b : buffer) (h : store) : loc * store :=
  let l := fresh (dom h) in (l, <[l:=b]> h).

(** Modelled from the spec: construction from an initial state buffer,
    "cloned if [copy = true], referenced in place if [copy = false]". *)
Definition create (state : loc) (copy : bool) (h : store)
  : option (manager * store) :=
  match h !! state with
  | None => None
  | Some b =>
      if copy
      then let '(l, h') := clone b h in Some (Manager l Exclusive true, h')
      else Some (Manager state Shared false, h)
  end.

(** Modelled from the spec: rebinding the manager's reference "to
    [newBuffer] (or a clone of it, if [copy = true])". *)
Definition rebind (m : manager) (new : loc) (nb : buffer) (h : store)
  : manager * store :=
  if m_copy m
  then let '(l, h') := clone nb h in (Manager l Exclusive true, h')
  else (Manager new Shared false, h).

(** Modelled from the spec: [setState(newBuffer)].  A manager holding a
    shared buffer copies a same-length [newBuffer] into it element-wise;
    with a different length, or holding an exclusive buffer, it rebinds
    its reference. *)
Definition setState (m : manager) (new : loc) (h : store)
  : option (manager * store) :=
  match h !! new, h !! m_state m with
  | Some nb, Some cur =>
      match m_own m with
      | Shared =>
          if (length nb =? length cur)%nat
          then Some (m, <[m_state m := gcopy (length nb) nb cur]> h)
          else Some (rebind m new nb h)
      | Exclusive => Some (rebind m new nb h)
      end
  | _, _ => None
  end.

(** Modelled from the spec: the [state] read of a manager. *)
Definition getState (m : manager) (h : store) : option buffer :=
  h !! m_state m.

(** A store with three buffers, the first two of the same length. *)
Definition sample_store : store :=
  <[3%positive := [4; 5]]>
    (<[2%positive := [7; 8; 9]]> {[1%positive := [1; 2; 3]]}).

End Prng.
Export Prng.

(** ** Basic facts *)

Section block_facts.
Context (cl : obj_class) (props : gmap string value).

Lemma hasOwnProp_lookup k :
  hasOwnProp (VObject cl props) k = bool_decide (is_Some (props !! k)).
Proof. reflexivity. Qed.

Lemma prop_insert_eq (o : gmap string value) k v : prop (<[k:=v]> o) k = v.
Proof. unfold prop. by rewrite lookup_insert_eq. Qed.

(** One validated block followed by the rest of the body. *)
Lemma check_block k (fails : value → bool) code (rest : stmt) opts :
  Seq (If (λ _, hasOwnProp (VObject cl props) k)
         (Seq (Assign k (member (VObject cl props) k))
            (If (λ o, fails (prop o k))
               (Return (λ o, TypeError (format code [VString k; prop o k]))))))
      rest opts
  = match props !! k with
    | None => rest opts
    | Some v =>
        if fails v
        then (<[k:=v]> opts, Some (TypeError (format code [VString k; v])))
        else rest (<[k:=v]> opts)
    end.
Proof.
  unfold Seq, If, Assign, Return, member. rewrite hasOwnProp_lookup.
  unfold prop. destruct (props !! k) as [v|]; simpl; [|done].
  rewrite lookup_insert_eq. simpl. by destruct (fails v).
Qed.

(** One pass-through block followed by the rest of the body. *)
Lemma copy_block k (rest : stmt) opts :
  Seq (If (λ _, hasOwnProp (VObject cl props) k)
         (Assign k (member (VObject cl props) k)))
      rest opts
  = rest (copy_key props opts k).
Proof.
  unfold Seq, If, Assign, member, copy_key. rewrite hasOwnProp_lookup.
  unfold prop. by destruct (props !! k).
Qed.
End block_facts.

(** The guard at the head of the body lets an object literal through. *)
Lemma plain_guard props (s rest : stmt) opts :
  Seq (If (λ _, negb (isObject (VObject ClsObject props))) s) rest opts
  = rest opts.
Proof. reflexivity. Qed.

(** Unfold the block of key [k] on both sides and split on its outcome;
    the branch that returns the error is closed at once. *)
#[local] Ltac block k f :=
  rewrite (check_block ClsObject _ k f); cbv beta;
  destruct (_ !! k) as [?|];
  [ match goal with |- context [if ?b then _ else _] => destruct b end;
    [reflexivity|]
  | ].

(** On an object literal, [validate] runs the six checks and then the four
    copies. *)
Lemma validate_plain opts props :
  validate opts (VObject ClsObject props) =
    match run_checks checked_fields props opts with
    | (opts', None) => (copy_keys passthrough_fields props opts', None)
    | (opts', Some e) => (opts', Some e)
    end.
Proof.
  unfold validate. rewrite plain_guard.
  unfold checked_fields, run_checks, field_error, sep_check, objectMode_check,
    encoding_check, highWaterMark_check, iter_check, siter_check,
    ck_key, ck_fails, ck_code.
  block "sep" (λ v, negb (isString v)).
  all: block "objectMode" (λ v, negb (isBoolean v)).
  all: block "encoding" (λ v, negb (isString v) && not_null v).
  all: block "highWaterMark" (λ v, negb (isNonNegative v)).
  all: block "iter" (λ v, negb (isNonNegativeInteger v)).
  all: block "siter" (λ v, negb (isPositiveInteger v)).
  all: by rewrite !copy_block.
Qed.

(** ** What the table does *)

Section table_facts.
Context (props : gmap string value).
Implicit Types (opts : gmap string value) (cs : list check) (ks : list string).

Lemma copy_key_lookup opts k k' :
  copy_key props opts k !! k' = if decide (k' = k) then copied props opts k' else opts !! k'.
Proof.
  unfold copy_key, copied. case_decide as Hk; subst.
  - destruct (props !! k); [by rewrite lookup_insert_eq | done].
  - destruct (props !! k); [by rewrite lookup_insert_ne | done].
Qed.

Lemma copy_keys_cons k ks opts :
  copy_keys (k :: ks) props opts = copy_keys ks props (copy_key props opts k).
Proof. reflexivity. Qed.

Lemma copy_keys_snoc k ks opts :
  copy_keys (ks ++ [k]) props opts = copy_key props (copy_keys ks props opts) k.
Proof. unfold copy_keys. by rewrite foldl_app. Qed.

Lemma copy_keys_app ks1 ks2 opts :
  copy_keys (ks1 ++ ks2) props opts = copy_keys ks2 props (copy_keys ks1 props opts).
Proof. unfold copy_keys. by rewrite foldl_app. Qed.

(** Copying a list of keys changes exactly those keys that are in the
    list and present in [props]. *)
Lemma copy_keys_lookup ks opts k :
  copy_keys ks props opts !! k = if decide (k ∈ ks) then copied props opts k else opts !! k.
Proof.
  revert opts. induction ks as [|k0 ks IH]; intros opts.
  - unfold copy_keys. simpl foldl.
    destruct (decide (k ∈ [])) as [H|_]; [by apply elem_of_nil in H | done].
  - rewrite copy_keys_cons, IH. clear IH.
    unfold copied. rewrite copy_key_lookup. unfold copied.
    destruct (props !! k), (decide (k ∈ ks)), (decide (k = k0)),
      (decide (k ∈ k0 :: ks)) as [Hin|Hin]; try done; exfalso;
      rewrite elem_of_cons in Hin; tauto.
Qed.

Lemma copy_keys_absent ks opts k :
  props !! k = None → copy_keys ks props opts !! k = opts !! k.
Proof.
  intros Hk. rewrite copy_keys_lookup. unfold copied. rewrite Hk.
  by case_decide.
Qed.

Lemma copy_keys_present ks opts k v :
  k ∈ ks → props !! k = Some v → copy_keys ks props opts !! k = Some v.
Proof.
  intros Hin Hk. rewrite copy_keys_lookup, decide_True by done.
  unfold copied. by rewrite Hk.
Qed.

Lemma copy_keys_other ks opts k :
  k ∉ ks → copy_keys ks props opts !! k = opts !! k.
Proof. intros Hin. by rewrite copy_keys_lookup, decide_False. Qed.

(** A field either fails or passes. *)
Lemma field_fails_or_passes c : field_fails props c ∨ field_passes props c.
Proof.
  unfold field_fails, field_passes.
  destruct (props !! ck_key c) as [v|] eqn:Hk; [|by right].
  destruct (ck_fails c v) eqn:Hv; [left; eauto | right].
  intros v' [= <-]. done.
Qed.

Lemma field_fails_not_passes c : field_fails props c → ¬ field_passes props c.
Proof. intros (v & Hk & Hv) Hp. specialize (Hp v Hk). congruence. Qed.

(** When every check passes, every present field is copied and the run
    falls through. *)
Lemma run_checks_pass cs opts :
  Forall (field_passes props) cs →
  run_checks cs props opts = (copy_keys (ck_key <$> cs) props opts, None).
Proof.
  intros Hall. revert opts.
  induction Hall as [|c cs Hc _ IH]; intros opts; [done|].
  rewrite fmap_cons, copy_keys_cons. cbn [run_checks]. unfold copy_key.
  destruct (props !! ck_key c) as [v|] eqn:Hk; [|apply IH].
  rewrite (Hc v Hk). apply IH.
Qed.

(** When the fields before [c] pass and [c] fails, the run copies the
    fields up to and including [c] and returns the error of [c]. *)
Lemma run_checks_fail pre c post v opts :
  Forall (field_passes props) pre →
  props !! ck_key c = Some v →
  ck_fails c v = true →
  run_checks (pre ++ c :: post) props opts
  = (copy_keys (ck_key <$> (pre ++ [c])) props opts, Some (field_error c v)).
Proof.
  intros Hall Hk Hv. revert opts.
  induction Hall as [|c0 pre Hc _ IH]; intros opts.
  - cbn [app run_checks]. rewrite Hk, Hv.
    unfold copy_keys, copy_key; simpl. by rewrite Hk.
  - rewrite <- !app_comm_cons, fmap_cons, copy_keys_cons. cbn [run_checks].
    unfold copy_key.
    destruct (props !! ck_key c0) as [v0|] eqn:Hk0; [|apply IH].
    rewrite (Hc v0 Hk0). apply IH.
Qed.

(** Every list of checks either passes as a whole or has a first failing
    field. *)
Lemma first_failure cs :
  Forall (field_passes props) cs
  ∨ ∃ pre c post,
      cs = pre ++ c :: post ∧ Forall (field_passes props) pre ∧ field_fails props c.
Proof.
  induction cs as [|c cs IH]; [by left|].
  destruct (field_fails_or_passes c) as [Hf|Hp].
  - right. by exists [], c, cs.
  - destruct IH as [Hall|(pre & c' & post & -> & Hpre & Hf)].
    + left. by constructor.
    + right. exists (c :: pre), c', post. split_and!; [done| by constructor |done].
Qed.

(** The first failing field is unique. *)
Lemma first_failure_unique pre1 c1 post1 pre2 c2 post2 :
  pre1 ++ c1 :: post1 = pre2 ++ c2 :: post2 →
  Forall (field_passes props) pre1 → field_fails props c1 →
  Forall (field_passes props) pre2 → field_fails props c2 →
  pre1 = pre2 ∧ c1 = c2 ∧ post1 = post2.
Proof.
  revert pre2.
  induction pre1 as [|a pre1 IH]; intros [|b pre2] Heq H1 F1 H2 F2;
    simpl in Heq.
  - by injection Heq as -> ->.
  - injection Heq as -> _. apply Forall_cons in H2 as [Hb _].
    by apply field_fails_not_passes in F1.
  - injection Heq as -> _. apply Forall_cons in H1 as [Ha _].
    by apply field_fails_not_passes in F2.
  - injection Heq as -> Heq.
    apply Forall_cons in H1 as [_ H1]. apply Forall_cons in H2 as [_ H2].
    by destruct (IH pre2 Heq H1 F1 H2 F2) as (-> & -> & ->).
Qed.
End table_facts.

(** ** The two outcomes of [validate] on an object literal *)

(** If every validated field passes, [validate] copies the ten recognized
    keys that are present and returns [null]. *)
Lemma validate_pass opts props :
  Forall (field_passes props) checked_fields →
  validate opts (VObject ClsObject props)
  = (copy_keys recognized_keys props opts, None).
Proof.
  intros Hall. rewrite validate_plain, run_checks_pass by done.
  unfold recognized_keys, checked_keys. by rewrite copy_keys_app.
Qed.

(** If [c] is the first failing field, [validate] copies the validated
    fields up to and including [c] and returns the error of [c]. *)
Lemma validate_fail opts props pre c post v :
  checked_fields = pre ++ c :: post →
  Forall (field_passes props) pre →
  props !! ck_key c = Some v →
  ck_fails c v = true →
  validate opts (VObject ClsObject props)
  = (copy_keys (ck_key <$> (pre ++ [c])) props opts, Some (field_error c v)).
Proof.
  intros Hcs Hall Hk Hv. rewrite validate_plain, Hcs.
  by rewrite (run_checks_fail props pre c post v).
Qed.

(** On anything that is not an object literal, [validate] returns at the
    guard. *)
Lemma validate_not_plain opts options :
  isObject options = false →
  validate opts options = (opts, Some (TypeError (format "0qh2V,FD" [options]))).
Proof.
  intros Hobj. unfold validate. unfold Seq at 1. unfold If at 1.
  by rewrite Hobj.
Qed.

Lemma isObject_true_inv options :
  isObject options = true → ∃ props, options = VObject ClsObject props.
Proof. destruct options as [| | | | |[] props]; try done. eauto. Qed.

(** ** Numbers: what the integer tests mean *)

Section number_facts.
Implicit Types (x : spec_float) (n : Z).

Lemma pow2_pos k : 0 < 2 ^ Z.max 0 k.
Proof. apply Z.pow_pos_nonneg; lia. Qed.

(** A double stands for at most one integer. *)
Lemma denotes_int_functional x n n' :
  denotes_int x n → denotes_int x n' → n = n'.
Proof.
  destruct x as [s|s| |s m e]; simpl; try done; [congruence|].
  intros H1 H2. pose proof (pow2_pos (- e)). nia.
Qed.

(** [isInt] holds exactly of the doubles that stand for an integer. *)
Lemma isInt_denotes x : isInt x = true ↔ ∃ n, denotes_int x n.
Proof.
  destruct x as [s|s| |s m e]; simpl.
  - split; [by exists 0 | done].
  - split; [done | by intros [? []]].
  - split; [done | by intros [? []]].
  - destruct (Z.leb_spec 0 e) as [He|He]; simpl.
    + split; [intros _ | done].
      exists (cond_Zopp s (Z.pos m) * 2 ^ e).
      rewrite (Z.max_r 0 e), (Z.max_l 0 (- e)) by lia. simpl. lia.
    + rewrite (Z.max_l 0 e), (Z.max_r 0 (- e)) by lia.
      assert (0 < 2 ^ (- e)) as Hpos by (apply Z.pow_pos_nonneg; lia).
      rewrite Z.eqb_eq, Z.mod_divide by lia. rewrite Z.mul_1_r. split.
      * intros [q Hq]. exists (cond_Zopp s q).
        destruct s; simpl; lia.
      * intros [n Hn]. exists (cond_Zopp s n).
        destruct s; simpl in *; lia.
Qed.

(** The comparisons with zero read the sign of the integer. *)
Lemma geq_zero_denotes x n : denotes_int x n → (geq_zero x = true ↔ 0 ≤ n).
Proof.
  destruct x as [s|s| |s m e]; simpl; try done.
  - intros ->. done.
  - intros H. pose proof (pow2_pos e). pose proof (pow2_pos (- e)).
    unfold geq_zero. destruct s; simpl in *; split; try done; nia.
Qed.

Lemma gt_zero_denotes x n : denotes_int x n → (gt_zero x = true ↔ 0 < n).
Proof.
  destruct x as [s|s| |s m e]; simpl; try done.
  - intros ->. done.
  - intros H. pose proof (pow2_pos e). pose proof (pow2_pos (- e)).
    unfold gt_zero. destruct s; simpl in *; split; try done; nia.
Qed.

(** [isNonNegativeInteger] holds exactly of the numbers that stand for an
    integer [n ≥ 0]. *)
Lemma isNonNegativeInteger_iff v :
  isNonNegativeInteger v = true ↔ ∃ x n, v = VNumber x ∧ denotes_int x n ∧ 0 ≤ n.
Proof.
  split.
  - destruct v as [| | |x| |]; simpl; try done.
    intros [Hi Hz]%andb_prop. apply isInt_denotes in Hi as [n Hn].
    exists x, n. split_and!; [done..|]. by apply (geq_zero_denotes x n).
  - intros (x & n & -> & Hn & Hz). simpl. apply andb_true_intro. split.
    + apply isInt_denotes. eauto.
    + by apply (geq_zero_denotes x n).
Qed.

(** [isPositiveInteger] holds exactly of the numbers that stand for an
    integer [n > 0]. *)
Lemma isPositiveInteger_iff v :
  isPositiveInteger v = true ↔ ∃ x n, v = VNumber x ∧ denotes_int x n ∧ 0 < n.
Proof.
  split.
  - destruct v as [| | |x| |]; simpl; try done.
    intros [Hi Hz]%andb_prop. apply isInt_denotes in Hi as [n Hn].
    exists x, n. split_and!; [done..|]. by apply (gt_zero_denotes x n).
  - intros (x & n & -> & Hn & Hz). simpl. apply andb_true_intro. split.
    + apply isInt_denotes. eauto.
    + by apply (gt_zero_denotes x n).
Qed.

(** [isNonNegative] holds exactly of the numbers that are not NaN and do
    not carry a minus sign, and of both zeros. *)
Lemma isNonNegative_iff v :
  isNonNegative v = true ↔
  ∃ x, v = VNumber x ∧
       ((∃ s, x = S754_zero s) ∨ x = S754_infinity false
        ∨ ∃ m e, x = S754_finite false m e).
Proof.
  split.
  - destruct v as [| | |x| |]; simpl; try done.
    intros H. exists x. split; [done|].
    destruct x as [s|[]| |[] m e]; try done; eauto.
  - intros (x & -> & [[s ->]|[->|(m & e & ->)]]); done.
Qed.
End number_facts.

Example num_5 : denotes_int (num 5) 5.
Proof. vm_compute. reflexivity. Qed.

Example isInt_half : isInt (dyadic 1 (-1)) = false.
Proof. reflexivity. Qed.

(** ** Consequences for [validate] *)

Lemma recognized_keys_NoDup : NoDup recognized_keys.
Proof. by apply (bool_decide_unpack _). Qed.

Lemma checked_keys_recognized k : k ∈ checked_keys → k ∈ recognized_keys.
Proof. intros H. unfold recognized_keys. apply elem_of_app. by left. Qed.

Lemma passthrough_recognized k : k ∈ passthrough_fields → k ∈ recognized_keys.
Proof. intros H. unfold recognized_keys. apply elem_of_app. by right. Qed.

(** A validated field is determined by its key. *)
Lemma check_by_key c c' :
  c ∈ checked_fields → c' ∈ checked_fields → ck_key c = ck_key c' → c = c'.
Proof.
  unfold checked_fields. intros Hc Hc' Hk.
  repeat (apply elem_of_cons in Hc as [->|Hc]);
    try (by apply elem_of_nil in Hc);
    repeat (apply elem_of_cons in Hc' as [->|Hc']);
    try (by apply elem_of_nil in Hc'); done.
Qed.

(** Where the fixed order is split at [c], the keys before [c], the key of
    [c] and the keys after it are pairwise distinct, and none of them is a
    pass-through key. *)
Lemma split_keys_disjoint pre c post k :
  checked_fields = pre ++ c :: post →
  k ∈ (ck_key <$> post) ++ passthrough_fields →
  k ∉ ck_key <$> (pre ++ [c]).
Proof.
  intros Hcs Hk Hin. pose proof recognized_keys_NoDup as Hnd.
  unfold recognized_keys, checked_keys in Hnd. rewrite Hcs in Hnd.
  replace (pre ++ c :: post) with ((pre ++ [c]) ++ post) in Hnd
    by (by rewrite <- app_assoc).
  rewrite fmap_app, <- app_assoc in Hnd.
  apply NoDup_app in Hnd as (_ & Hdisj & _). by apply (Hdisj k).
Qed.

(** The outcome of [validate] on an object literal: every check passes and
    the ten keys are copied, or some field is the first to fail and the
    keys up to it are copied. *)
Lemma validate_cases opts props :
  (Forall (field_passes props) checked_fields
   ∧ validate opts (VObject ClsObject props)
     = (copy_keys recognized_keys props opts, None))
  ∨ ∃ pre c post v,
      checked_fields = pre ++ c :: post
      ∧ Forall (field_passes props) pre
      ∧ props !! ck_key c = Some v ∧ ck_fails c v = true
      ∧ validate opts (VObject ClsObject props)
        = (copy_keys (ck_key <$> (pre ++ [c])) props opts, Some (field_error c v)).
Proof.
  destruct (first_failure props checked_fields)
    as [Hall|(pre & c & post & Hcs & Hpre & v & Hk & Hv)].
  - left. split; [done|]. by apply validate_pass.
  - right. exists pre, c, post, v. split_and!; try done.
    by apply (validate_fail opts props pre c post v).
Qed.

(** [validate] returns [null] exactly when every check passes. *)
Lemma validate_null_iff_pass opts props :
  (validate opts (VObject ClsObject props)).2 = None
  ↔ Forall (field_passes props) checked_fields.
Proof.
  destruct (validate_cases opts props)
    as [[Hall ->]|(pre & c & post & v & Hcs & Hpre & Hk & Hv & ->)]; simpl.
  - done.
  - split; [done|]. intros Hall. rewrite Hcs in Hall.
    apply Forall_app in Hall as [_ [Hc _]%Forall_cons].
    specialize (Hc v Hk). congruence.
Qed.

Lemma not_null_false v : not_null v = false ↔ v = VNull.
Proof. by destruct v. Qed.

Lemma encoding_passes v :
  negb (isString v) && not_null v = false ↔ isString v = true ∨ v = VNull.
Proof.
  rewrite andb_false_iff, negb_false_iff, not_null_false. done.
Qed.

Lemma checks_pass_iff_spec_valid props :
  Forall (field_passes props) checked_fields ↔ spec_valid props.
Proof.
  unfold checked_fields, spec_valid, field_passes.
  rewrite !Forall_cons, Forall_nil. simpl.
  setoid_rewrite negb_false_iff. setoid_rewrite encoding_passes.
  tauto.
Qed.

(** C1: for every destination record and every object-literal options
    mapping, [validate] returns [null] if and only if every recognized
    field that is an own property of [options] satisfies its type
    condition ([sep] text, [objectMode] boolean, [encoding] text or
    [null], [highWaterMark] a non-negative number, [iter] a non-negative
    integer, [siter] a positive integer); otherwise it returns a
    [TypeError]. *)
Theorem validate_null_iff_spec_valid opts props :
  ((validate opts (VObject ClsObject props)).2 = None ↔ spec_valid props)
  ∧ ((validate opts (VObject ClsObject props)).2 ≠ None →
     ∃ m, (validate opts (VObject ClsObject props)).2 = Some (TypeError m)).
Proof.
  split.
  - rewrite validate_null_iff_pass. apply checks_pass_iff_spec_valid.
  - destruct (validate_cases opts props)
      as [[Hall ->]|(pre & c & post & v & Hcs & Hpre & Hk & Hv & ->)]; simpl.
    + done.
    + intros _. unfold field_error. eauto.
Qed.

Lemma validate_null_iff_spec_valid_witness :
  spec_valid good_options ∧ ¬ spec_valid bad_sep.
Proof.
  split.
  - apply (proj1 (validate_null_iff_spec_valid ∅ good_options)).
    vm_compute. reflexivity.
  - intros Hvalid.
    apply (proj1 (validate_null_iff_spec_valid ∅ bad_sep)) in Hvalid.
    vm_compute in Hvalid. discriminate.
Defined.

(** C7: whenever [sep] is present and is not text, validation fails with a
    [TypeError] whose message names the field [sep] and the value
    received. *)
Theorem sep_not_text_is_rejected opts props v :
  props !! "sep" = Some v →
  isString v = false →
  (validate opts (VObject ClsObject props)).2
  = Some (TypeError (format "0qh2W,Gh" [VString "sep"; v])).
Proof.
  intros Hk Hv.
  rewrite (validate_fail opts props [] sep_check (tail checked_fields) v);
    [done..|]. simpl. by rewrite Hv.
Qed.

Lemma sep_not_text_is_rejected_witness :
  (validate ∅ (VObject ClsObject {["sep" := VNumber (num 5)]})).2
  = Some (TypeError (format "0qh2W,Gh" [VString "sep"; VNumber (num 5)])).
Proof.
  apply (sep_not_text_is_rejected ∅ {["sep" := VNumber (num 5)]} (VNumber (num 5)));
    reflexivity.
Defined.

(** C10: for every destination record and every [options] that is not an
    object literal ([null], an array, a number, a string, ...),
    [validate] returns a [TypeError] at once and leaves the destination
    record as it was. *)
Theorem not_plain_object_is_rejected opts options :
  isObject options = false →
  validate opts options = (opts, Some (TypeError (format "0qh2V,FD" [options]))).
Proof. apply validate_not_plain. Qed.

Lemma not_plain_object_is_rejected_witness :
  validate {["sep" := VString ","]} VNull
  = ({["sep" := VString ","]}, Some (TypeError (format "0qh2V,FD" [VNull])))
  ∧ validate ∅ (VObject ClsArray {["0" := VString "sep"]})
    = (∅, Some (TypeError (format "0qh2V,FD" [VObject ClsArray {["0" := VString "sep"]}])))
  ∧ validate ∅ (VNumber (num 5))
    = (∅, Some (TypeError (format "0qh2V,FD" [VNumber (num 5)])))
  ∧ validate ∅ (VString "abc")
    = (∅, Some (TypeError (format "0qh2V,FD" [VString "abc"]))).
Proof.
  split_and!; apply not_plain_object_is_rejected; reflexivity.
Defined.

(** C2: when two or more recognized fields are invalid, [validate] returns
    the error of the one that comes earliest in the fixed order [sep],
    [objectMode], [encoding], [highWaterMark], [iter], [siter], and no
    field after the failing one is written into the destination record. *)
Theorem first_failure_short_circuits opts props c1 c2 :
  c1 ∈ checked_fields → c2 ∈ checked_fields → ck_key c1 ≠ ck_key c2 →
  field_fails props c1 → field_fails props c2 →
  ∃ pre c post v,
    checked_fields = pre ++ c :: post
    ∧ Forall (field_passes props) pre
    ∧ c1 ∈ c :: post ∧ c2 ∈ c :: post
    ∧ props !! ck_key c = Some v ∧ ck_fails c v = true
    ∧ (validate opts (VObject ClsObject props)).2 = Some (field_error c v)
    ∧ ∀ k, k ∈ (ck_key <$> post) ++ passthrough_fields →
           (validate opts (VObject ClsObject props)).1 !! k = opts !! k.
Proof.
  intros Hc1 Hc2 _ Hf1 Hf2.
  destruct (validate_cases opts props)
    as [[Hall _]|(pre & c & post & v & Hcs & Hpre & Hk & Hv & ->)].
  - exfalso. apply (field_fails_not_passes props c1 Hf1).
    by apply (proj1 (Forall_forall _ _) Hall).
  - assert (∀ c', c' ∈ checked_fields → field_fails props c' → c' ∈ c :: post)
      as Hlater.
    { intros c' Hc' Hf'. rewrite Hcs in Hc'.
      apply elem_of_app in Hc' as [Hin|Hin]; [|done].
      exfalso. apply (field_fails_not_passes props c' Hf').
      by apply (proj1 (Forall_forall _ _) Hpre). }
    exists pre, c, post, v. split_and!; auto.
    intros k Hin. simpl. apply copy_keys_other.
    by apply (split_keys_disjoint pre c post).
Qed.

Lemma first_failure_short_circuits_witness :
  ∃ pre c post v,
    checked_fields = pre ++ c :: post
    ∧ Forall (field_passes two_invalid) pre
    ∧ encoding_check ∈ c :: post ∧ iter_check ∈ c :: post
    ∧ two_invalid !! ck_key c = Some v ∧ ck_fails c v = true
    ∧ (validate ∅ (VObject ClsObject two_invalid)).2 = Some (field_error c v)
    ∧ ∀ k, k ∈ (ck_key <$> post) ++ passthrough_fields →
           (validate ∅ (VObject ClsObject two_invalid)).1 !! k
           = (∅ : gmap string value) !! k.
Proof.
  apply (first_failure_short_circuits ∅ two_invalid encoding_check iter_check).
  - unfold checked_fields. do 2 apply list_elem_of_further. apply list_elem_of_here.
  - unfold checked_fields. do 4 apply list_elem_of_further. apply list_elem_of_here.
  - discriminate.
  - exists (VNumber (num 5)). split; reflexivity.
  - exists (VNumber (num (-1))). split; reflexivity.
Defined.

Example two_invalid_fields_first_reported :
  validate ∅ (VObject ClsObject two_invalid)
  = ({["encoding" := VNumber (num 5)]},
     Some (TypeError (format "0qh7n,Ny" [VString "encoding"; VNumber (num 5)]))).
Proof. vm_compute. reflexivity. Qed.

(** ** The destination record *)

Lemma copy_keys_noop ks (props opts : gmap string value) :
  (∀ k, k ∈ ks → props !! k = None) → copy_keys ks props opts = opts.
Proof.
  intros Habs. apply map_eq. intros k. rewrite copy_keys_lookup.
  destruct (decide (k ∈ ks)) as [Hin|]; [|done].
  unfold copied. by rewrite (Habs k Hin).
Qed.

Lemma member_lookup cl (props : gmap string value) k v :
  props !! k = Some v → member (VObject cl props) k = v.
Proof. intros Hk. unfold member, prop. by rewrite Hk. Qed.

Lemma hasOwnProp_true cl (props : gmap string value) k :
  hasOwnProp (VObject cl props) k = true ↔ is_Some (props !! k).
Proof. simpl. apply bool_decide_eq_true. Qed.

Lemma hasOwnProp_false cl (props : gmap string value) k :
  hasOwnProp (VObject cl props) k = false ↔ props !! k = None.
Proof.
  simpl. rewrite bool_decide_eq_false, <- eq_None_not_Some. done.
Qed.

Lemma split_keys_recognized pre c post k :
  checked_fields = pre ++ c :: post →
  k ∈ ck_key <$> (pre ++ [c]) → k ∈ recognized_keys.
Proof.
  intros Hcs Hin. apply checked_keys_recognized.
  unfold checked_keys. rewrite Hcs.
  replace (pre ++ c :: post) with ((pre ++ [c]) ++ post)
    by (by rewrite <- app_assoc).
  rewrite fmap_app. apply elem_of_app. by left.
Qed.

(** Every key of the destination is either as it was, or a recognized key
    that [options] owns and whose value has been copied. *)
Lemma validate_lookup opts props k :
  (validate opts (VObject ClsObject props)).1 !! k = opts !! k
  ∨ (k ∈ recognized_keys
     ∧ ∃ v, props !! k = Some v
            ∧ (validate opts (VObject ClsObject props)).1 !! k = Some v).
Proof.
  destruct (validate_cases opts props)
    as [[Hall ->]|(pre & c & post & v & Hcs & Hpre & Hk & Hv & ->)]; cbn [fst];
    rewrite copy_keys_lookup; unfold copied;
    (destruct (decide _) as [Hin|]; [|by left]);
    (destruct (props !! k) as [w|] eqn:Hw; [right|by left]).
  - eauto.
  - split; [by apply (split_keys_recognized pre c post)|eauto].
Qed.

(** The returned value depends on [options] only through the six validated
    keys. *)
Lemma run_checks_result_ext cs props1 props2 opts1 opts2 :
  (∀ c, c ∈ cs → props1 !! ck_key c = props2 !! ck_key c) →
  (run_checks cs props1 opts1).2 = (run_checks cs props2 opts2).2.
Proof.
  revert opts1 opts2. induction cs as [|c cs IH]; intros opts1 opts2 Hagree; [done|].
  simpl. rewrite <- (Hagree c) by left.
  assert (∀ c', c' ∈ cs → props1 !! ck_key c' = props2 !! ck_key c') as Hrest
    by (intros c' Hc'; apply Hagree; by right).
  destruct (props1 !! ck_key c) as [v|]; [|by apply IH].
  destruct (ck_fails c v); [done|by apply IH].
Qed.

Lemma validate_result_run opts props :
  (validate opts (VObject ClsObject props)).2
  = (run_checks checked_fields props opts).2.
Proof.
  rewrite validate_plain. by destruct (run_checks _ _ _) as [o [e|]].
Qed.

Lemma passthrough_not_checked c k :
  c ∈ checked_fields → k ∈ passthrough_fields → ck_key c ≠ k.
Proof.
  intros Hc Hk Heq. pose proof recognized_keys_NoDup as Hnd.
  unfold recognized_keys in Hnd. apply NoDup_app in Hnd as (_ & Hdisj & _).
  apply (Hdisj k); [|done]. unfold checked_keys. rewrite <- Heq.
  by apply list_elem_of_fmap_2.
Qed.

(** C3 (as stated): when [validate] returns an error the destination record
    has not been populated.  It fails: the source assigns a field before it
    tests it, so [validate( {}, { sep: 5 } )] returns the error and leaves
    [sep: 5] in the destination. *)
Lemma error_leaves_offending_value :
  validate ∅ (VObject ClsObject bad_sep)
  = ({["sep" := VNumber (num 5)]},
     Some (TypeError (format "0qh2W,Gh" [VString "sep"; VNumber (num 5)])))
  ∧ ¬ (∀ opts options opts' e,
         validate opts options = (opts', Some e) → opts' = opts).
Proof.
  assert (validate ∅ (VObject ClsObject bad_sep)
          = ({["sep" := VNumber (num 5)]},
             Some (TypeError (format "0qh2W,Gh" [VString "sep"; VNumber (num 5)]))))
    as Hrun by (vm_compute; reflexivity).
  split; [done|]. intros Hclaim.
  specialize (Hclaim _ _ _ _ Hrun).
  apply (f_equal (λ m : gmap string value, m !! "sep")) in Hclaim.
  vm_compute in Hclaim. discriminate.
Qed.

(** C3 (amended): [validate] either returns a [TypeError] or populates the
    destination record and returns no error.  When it returns no error,
    every validated field that [options] owns satisfies its type
    condition, every recognized key that [options] owns holds the value
    of [options] in the destination, and every other key is as it was.
    When it returns an error, the error is a [TypeError]: for an
    [options] that is not an object literal it is the error of the guard
    and the destination is as it was; otherwise it is the error of the
    first failing field, and the destination holds the offending value
    under that field's key and the values of the validated fields before
    it that [options] owns, and every other key is as it was. *)
Theorem error_destination opts options opts' r :
  validate opts options = (opts', r) →
  (r = None
   ∧ ∃ props,
       options = VObject ClsObject props
       ∧ spec_valid props
       ∧ (∀ k v, k ∈ recognized_keys → props !! k = Some v → opts' !! k = Some v)
       ∧ (∀ k, k ∉ recognized_keys ∨ props !! k = None → opts' !! k = opts !! k))
  ∨ (isObject options = false
     ∧ r = Some (TypeError (format "0qh2V,FD" [options]))
     ∧ opts' = opts)
  ∨ ∃ props pre c post v,
      options = VObject ClsObject props
      ∧ checked_fields = pre ++ c :: post
      ∧ Forall (field_passes props) pre
      ∧ props !! ck_key c = Some v ∧ ck_fails c v = true
      ∧ r = Some (TypeError (format (ck_code c) [VString (ck_key c); v]))
      ∧ opts' !! ck_key c = Some v
      ∧ (∀ k, k ∈ ck_key <$> pre → opts' !! k = copied props opts k)
      ∧ (∀ k, k ∉ ck_key <$> (pre ++ [c]) → opts' !! k = opts !! k).
Proof.
  intros Hrun. destruct (isObject options) eqn:Hobj.
  - apply isObject_true_inv in Hobj as [props ->].
    destruct (validate_cases opts props)
      as [[Hall Heq]|(pre & c & post & v & Hcs & Hpre & Hk & Hv & Heq)];
      rewrite Heq in Hrun.
    + left.
      assert (opts' = copy_keys recognized_keys props opts) as -> by congruence.
      assert (r = None) as -> by congruence.
      split; [done|]. exists props. split_and!; [done| | |].
      * by apply checks_pass_iff_spec_valid.
      * intros k v Hin Hkv. by apply copy_keys_present.
      * intros k [Hout|Habs];
          [by apply copy_keys_other | by apply copy_keys_absent].
    + right. right.
      assert (opts' = copy_keys (ck_key <$> (pre ++ [c])) props opts) as ->
        by congruence.
      assert (r = Some (field_error c v)) as -> by congruence.
      exists props, pre, c, post, v. split_and!; try done.
      * apply copy_keys_present; [|done]. rewrite fmap_app.
        apply elem_of_app. right. apply list_elem_of_here.
      * intros k Hin. rewrite copy_keys_lookup, decide_True; [done|].
        rewrite fmap_app. apply elem_of_app. by left.
      * intros k Hin. by apply copy_keys_other.
  - right. left. rewrite validate_not_plain in Hrun by done.
    split_and!; [done|congruence|congruence].
Qed.

Lemma error_destination_witness :
  (Some (TypeError (format "0qh2W,Gh" [VString "sep"; VNumber (num 5)])) = None
   ∧ ∃ props,
       VObject ClsObject bad_sep = VObject ClsObject props
       ∧ spec_valid props
       ∧ (∀ k v, k ∈ recognized_keys → props !! k = Some v →
                 ({["sep" := VNumber (num 5)]} : gmap string value) !! k = Some v)
       ∧ (∀ k, k ∉ recognized_keys ∨ props !! k = None →
               ({["sep" := VNumber (num 5)]} : gmap string value) !! k
               = (∅ : gmap string value) !! k))
  ∨ (isObject (VObject ClsObject bad_sep) = false
     ∧ Some (TypeError (format "0qh2W,Gh" [VString "sep"; VNumber (num 5)]))
       = Some (TypeError (format "0qh2V,FD" [VObject ClsObject bad_sep]))
     ∧ ({["sep" := VNumber (num 5)]} : gmap string value) = ∅)
  ∨ ∃ props pre c post v,
      VObject ClsObject bad_sep = VObject ClsObject props
      ∧ checked_fields = pre ++ c :: post
      ∧ Forall (field_passes props) pre
      ∧ props !! ck_key c = Some v ∧ ck_fails c v = true
      ∧ Some (TypeError (format "0qh2W,Gh" [VString "sep"; VNumber (num 5)]))
        = Some (TypeError (format (ck_code c) [VString (ck_key c); v]))
      ∧ ({["sep" := VNumber (num 5)]} : gmap string value) !! ck_key c = Some v
      ∧ (∀ k, k ∈ ck_key <$> pre →
              ({["sep" := VNumber (num 5)]} : gmap string value) !! k
              = copied props ∅ k)
      ∧ (∀ k, k ∉ ck_key <$> (pre ++ [c]) →
              ({["sep" := VNumber (num 5)]} : gmap string value) !! k
              = (∅ : gmap string value) !! k).
Proof.
  apply (error_destination ∅ (VObject ClsObject bad_sep)).
  vm_compute. reflexivity.
Defined.

(** C5 (as stated): for every options mapping the fields [prng], [seed],
    [state] and [copy] are copied into the destination.  It fails where a
    validated field is invalid: [validate( {}, { sep: 5, prng: f } )]
    returns at [sep] and never copies [prng]. *)
Lemma passthrough_not_copied_after_error :
  bad_sep_with_prng !! "prng" = Some (VObject ClsFunction ∅)
  ∧ (validate ∅ (VObject ClsObject bad_sep_with_prng)).1 !! "prng" = None
  ∧ ¬ (∀ opts props k v,
         k ∈ passthrough_fields → props !! k = Some v →
         (validate opts (VObject ClsObject props)).1 !! k = Some v).
Proof.
  assert ((validate ∅ (VObject ClsObject bad_sep_with_prng)).1 !! "prng" = None)
    as Hrun by (vm_compute; reflexivity).
  split_and!; [by vm_compute|done|].
  intros Hclaim.
  rewrite (Hclaim ∅ bad_sep_with_prng "prng" (VObject ClsFunction ∅)) in Hrun.
  - discriminate.
  - unfold passthrough_fields. apply list_elem_of_here.
  - by vm_compute.
Qed.

(** C5 (amended): whenever [validate] returns [null], each of [prng],
    [seed], [state] and [copy] that [options] owns is copied verbatim into
    the destination record; and no value of these four fields ever makes
    [validate] return an error: the returned value is the same whatever
    they hold, and whether or not they are present. *)
Theorem passthrough_copied_on_success opts props k :
  k ∈ passthrough_fields →
  ((validate opts (VObject ClsObject props)).2 = None →
   ∀ v, props !! k = Some v →
        (validate opts (VObject ClsObject props)).1 !! k = Some v)
  ∧ (∀ v, (validate opts (VObject ClsObject (<[k:=v]> props))).2
          = (validate opts (VObject ClsObject props)).2)
  ∧ (validate opts (VObject ClsObject (delete k props))).2
    = (validate opts (VObject ClsObject props)).2.
Proof.
  intros Hk. split_and!.
  - intros Hnull v Hv. apply validate_null_iff_pass in Hnull.
    rewrite validate_pass by done. cbn [fst].
    apply copy_keys_present; [|done]. by apply passthrough_recognized.
  - intros v. rewrite !validate_result_run. apply run_checks_result_ext.
    intros c Hc. apply lookup_insert_ne.
    intros Heq. by apply (passthrough_not_checked c k).
  - rewrite !validate_result_run. apply run_checks_result_ext.
    intros c Hc. apply lookup_delete_ne.
    intros Heq. by apply (passthrough_not_checked c k).
Qed.

Lemma passthrough_copied_on_success_witness :
  ((validate ∅ (VObject ClsObject good_options)).2 = None →
   ∀ v, good_options !! "seed" = Some v →
        (validate ∅ (VObject ClsObject good_options)).1 !! "seed" = Some v)
  ∧ (∀ v, (validate ∅ (VObject ClsObject (<["seed":=v]> good_options))).2
          = (validate ∅ (VObject ClsObject good_options)).2)
  ∧ (validate ∅ (VObject ClsObject (delete "seed" good_options))).2
    = (validate ∅ (VObject ClsObject good_options)).2.
Proof.
  apply (passthrough_copied_on_success ∅ good_options "seed").
  unfold passthrough_fields. apply list_elem_of_further, list_elem_of_here.
Defined.

Example good_options_validate :
  validate ∅ (VObject ClsObject good_options)
  = (delete "extra" good_options, None).
Proof. vm_compute. reflexivity. Qed.

(** C6: [validate] writes only the ten recognized keys into the
    destination record, and a recognized key only when [options] owns it;
    keys that [options] does not own are left as they were (nothing is
    defaulted); and on options that own no recognized key [validate]
    returns [null] without writing anything. *)
Theorem only_recognized_own_keys_written opts options k :
  ((validate opts options).1 !! k = opts !! k
   ∨ (k ∈ recognized_keys ∧ hasOwnProp options k = true
      ∧ (validate opts options).1 !! k = Some (member options k)))
  ∧ (hasOwnProp options k = false → (validate opts options).1 !! k = opts !! k)
  ∧ (isObject options = true →
     (∀ k', k' ∈ recognized_keys → hasOwnProp options k' = false) →
     validate opts options = (opts, None)).
Proof.
  destruct (isObject options) eqn:Hobj.
  - apply isObject_true_inv in Hobj as [props ->].
    pose proof (validate_lookup opts props k) as Hlook. split_and!.
    + destruct Hlook as [Hsame|(Hrec & v & Hv & Hnew)]; [by left|right].
      split_and!; [done| |].
      * apply hasOwnProp_true. by exists v.
      * by rewrite (member_lookup _ _ _ _ Hv).
    + intros Habs%hasOwnProp_false.
      destruct Hlook as [Hsame|(_ & v & Hv & _)]; [done|congruence].
    + intros _ Habs.
      assert (∀ k', k' ∈ recognized_keys → props !! k' = None) as Hnone
        by (intros k' Hk'; by apply (hasOwnProp_false ClsObject), Habs).
      rewrite validate_pass.
      * by rewrite copy_keys_noop.
      * apply Forall_forall. intros c Hc v Hv.
        rewrite Hnone in Hv; [done|].
        apply checked_keys_recognized. by apply list_elem_of_fmap_2.
  - rewrite validate_not_plain by done. split_and!; [by left|done|done].
Qed.

Lemma only_recognized_own_keys_written_witness :
  (validate ∅ (VObject ClsObject good_options)).1 !! "encoding"
  = (∅ : gmap string value) !! "encoding"
  ∧ validate bad_sep (VObject ClsObject {["verbose" := VBoolean true]})
    = (bad_sep, None).
Proof.
  split.
  - apply (only_recognized_own_keys_written ∅ (VObject ClsObject good_options)).
    reflexivity.
  - apply (only_recognized_own_keys_written bad_sep
             (VObject ClsObject {["verbose" := VBoolean true]}) "sep");
      [reflexivity|].
    intros k Hk. unfold recognized_keys, checked_keys, checked_fields,
      passthrough_fields in Hk. simpl in Hk.
    repeat (apply elem_of_cons in Hk as [->|Hk]); try reflexivity.
    by apply elem_of_nil in Hk.
Defined.

Example unrecognized_keys_ignored :
  validate {["iter" := VNumber (num 3)]}
    (VObject ClsObject (<["verbose" := VBoolean true]> {["name" := VString "x"]}))
  = ({["iter" := VNumber (num 3)]}, None).
Proof. vm_compute. reflexivity. Qed.

(** ** Single fields *)

(** When every other validated field passes, the checks pass as a whole
    exactly when [c] passes. *)
Lemma only_field_matters c props :
  c ∈ checked_fields →
  (∀ c', c' ∈ checked_fields → ck_key c' ≠ ck_key c → field_passes props c') →
  Forall (field_passes props) checked_fields ↔ field_passes props c.
Proof.
  intros Hc Hothers. rewrite Forall_forall. split; [by auto|].
  intros Hpass c' Hc'. destruct (decide (ck_key c' = ck_key c)) as [Heq|Hne].
  - by rewrite (check_by_key c' c Hc' Hc Heq).
  - by apply Hothers.
Qed.

(** When every other validated field passes, an error can only be that of
    [c]. *)
Lemma only_field_fails c props opts v :
  c ∈ checked_fields →
  (∀ c', c' ∈ checked_fields → ck_key c' ≠ ck_key c → field_passes props c') →
  props !! ck_key c = Some v →
  (validate opts (VObject ClsObject props)).2 ≠ None →
  (validate opts (VObject ClsObject props)).2 = Some (field_error c v).
Proof.
  intros Hc Hothers Hk.
  destruct (validate_cases opts props)
    as [[Hall ->]|(pre & c0 & post & v0 & Hcs & Hpre & Hk0 & Hv0 & ->)];
    cbn [snd]; [done|]. intros _.
  assert (c0 ∈ checked_fields) as Hc0.
  { rewrite Hcs. apply elem_of_app. right. apply list_elem_of_here. }
  destruct (decide (ck_key c0 = ck_key c)) as [Heq|Hne].
  - rewrite (check_by_key c0 c Hc0 Hc Heq) in *. congruence.
  - specialize (Hothers c0 Hc0 Hne v0 Hk0). congruence.
Qed.

(** When every other validated field passes, [validate] returns [null]
    exactly when the check of [c] does not fail. *)
Lemma only_field_accepts c props opts v :
  c ∈ checked_fields →
  (∀ c', c' ∈ checked_fields → ck_key c' ≠ ck_key c → field_passes props c') →
  props !! ck_key c = Some v →
  (validate opts (VObject ClsObject props)).2 = None ↔ ck_fails c v = false.
Proof.
  intros Hc Hothers Hk. rewrite validate_null_iff_pass.
  rewrite (only_field_matters c props Hc Hothers). unfold field_passes. split.
  - intros Hpass. by apply Hpass.
  - intros Hv v' Hk'. rewrite Hk in Hk'. by injection Hk' as <-.
Qed.

Lemma iter_check_checked : iter_check ∈ checked_fields.
Proof. unfold checked_fields. do 4 apply list_elem_of_further. apply list_elem_of_here. Qed.

Lemma encoding_check_checked : encoding_check ∈ checked_fields.
Proof. unfold checked_fields. do 2 apply list_elem_of_further. apply list_elem_of_here. Qed.

(** C8: [validate] accepts the iteration cap [iter] if and only if it is a
    non-negative integer; in particular [iter = 0] is accepted, while
    negative, fractional and non-numeric values are rejected with the
    error naming [iter]. *)
Theorem iter_accepted_iff_nonnegative_integer opts props v :
  props !! "iter" = Some v →
  (∀ c, c ∈ checked_fields → ck_key c ≠ "iter" → field_passes props c) →
  ((validate opts (VObject ClsObject props)).2 = None
   ↔ ∃ x n, v = VNumber x ∧ denotes_int x n ∧ 0 ≤ n)
  ∧ ((validate opts (VObject ClsObject props)).2 ≠ None →
     (validate opts (VObject ClsObject props)).2
     = Some (TypeError (format "0qh2t,G9" [VString "iter"; v])))
  ∧ (v = VNumber (S754_zero false) →
     (validate opts (VObject ClsObject props)).2 = None)
  ∧ ((∀ x, v ≠ VNumber x) ∨ (∃ x n, v = VNumber x ∧ denotes_int x n ∧ n < 0)
     ∨ (∃ x, v = VNumber x ∧ ∀ n, ¬ denotes_int x n) →
     (validate opts (VObject ClsObject props)).2
     = Some (TypeError (format "0qh2t,G9" [VString "iter"; v]))).
Proof.
  intros Hk Hothers.
  assert ((validate opts (VObject ClsObject props)).2 = None
          ↔ ∃ x n, v = VNumber x ∧ denotes_int x n ∧ 0 ≤ n) as Hiff.
  { rewrite validate_null_iff_pass.
    rewrite (only_field_matters iter_check props iter_check_checked Hothers).
    rewrite <- isNonNegativeInteger_iff. unfold field_passes. simpl. split.
    - intros Hpass. specialize (Hpass v Hk). by apply negb_false_iff in Hpass.
    - intros Hv v' Hk'. rewrite Hk in Hk'. injection Hk' as <-.
      by apply negb_false_iff. }
  pose proof (only_field_fails iter_check props opts v iter_check_checked
                Hothers Hk) as Herr.
  split_and!; [done|done| |].
  - intros ->. apply Hiff. by exists (S754_zero false), 0.
  - intros Hbad. apply Herr. intros Hnull. apply Hiff in Hnull.
    destruct Hnull as (x & n & -> & Hn & Hpos).
    destruct Hbad as [Hnum|[(x' & n' & [= <-] & Hn' & Hneg)|(x' & [= <-] & Hnone)]].
    + by apply (Hnum x).
    + pose proof (denotes_int_functional x n n' Hn Hn'). lia.
    + by apply (Hnone n).
Qed.

Lemma iter_accepted_iff_nonnegative_integer_witness :
  (validate ∅ (VObject ClsObject iter_zero)).2 = None.
Proof.
  apply (iter_accepted_iff_nonnegative_integer ∅ iter_zero (VNumber (num 0))).
  - reflexivity.
  - intros c Hc Hne v Hv. unfold checked_fields in Hc.
    repeat (apply elem_of_cons in Hc as [->|Hc]); try done.
    by apply elem_of_nil in Hc.
  - reflexivity.
Defined.

Example iter_zero_accepted :
  validate ∅ (VObject ClsObject {["iter" := VNumber (num 0)]})
  = ({["iter" := VNumber (num 0)]}, None).
Proof. vm_compute. reflexivity. Qed.

Example iter_negative_rejected :
  (validate ∅ (VObject ClsObject {["iter" := VNumber (num (-1))]})).2
  = Some (TypeError (format "0qh2t,G9" [VString "iter"; VNumber (num (-1))])).
Proof. vm_compute. reflexivity. Qed.

Example iter_fractional_rejected :
  (validate ∅ (VObject ClsObject {["iter" := VNumber (dyadic 5 (-1))]})).2
  = Some (TypeError (format "0qh2t,G9" [VString "iter"; VNumber (dyadic 5 (-1))])).
Proof. vm_compute. reflexivity. Qed.

Example iter_text_rejected :
  (validate ∅ (VObject ClsObject {["iter" := VString "5"]})).2
  = Some (TypeError (format "0qh2t,G9" [VString "iter"; VString "5"])).
Proof. vm_compute. reflexivity. Qed.

Example iter_infinite_rejected :
  (validate ∅ (VObject ClsObject {["iter" := VNumber (S754_infinity false)]})).2
  = Some (TypeError (format "0qh2t,G9" [VString "iter"; VNumber (S754_infinity false)])).
Proof. vm_compute. reflexivity. Qed.

(** A key whose value passes its check does not contribute to the returned
    value: the checks return the same with the key removed. *)
Lemma run_checks_skip_passing cs props k opts1 opts2 :
  (∀ c, c ∈ cs → ck_key c = k → field_passes props c) →
  (run_checks cs props opts1).2 = (run_checks cs (delete k props) opts2).2.
Proof.
  revert opts1 opts2.
  induction cs as [|c cs IH]; intros opts1 opts2 Hpass; [done|].
  assert (∀ c', c' ∈ cs → ck_key c' = k → field_passes props c') as Hrest
    by (intros c' Hc'; apply Hpass; by right).
  cbn [run_checks]. destruct (decide (ck_key c = k)) as [Heq|Hne].
  - rewrite Heq, lookup_delete_eq.
    destruct (props !! k) as [v|] eqn:Hk; [|by apply IH].
    assert (ck_fails c v = false) as ->
      by (apply (Hpass c); [by left|done|by rewrite Heq]).
    by apply IH.
  - rewrite lookup_delete_ne by done.
    destruct (props !! ck_key c) as [v|]; [|by apply IH].
    destruct (ck_fails c v); [done|by apply IH].
Qed.

(** C9: [validate] rejects [encoding] if and only if it is present, is not
    text and is not [null].  Every string and [null] are accepted: the
    value is written into the destination, the returned value is the one
    [validate] returns without the field, and it is [null] when every
    other validated field passes.  Every other value ([undefined],
    numbers, booleans, ...) yields the [TypeError] naming [encoding]. *)
Theorem encoding_rejected_iff opts props v :
  field_passes props sep_check →
  field_passes props objectMode_check →
  ((∃ code, (validate opts (VObject ClsObject props)).2
            = Some (TypeError (format code [VString "encoding"; v])))
   ↔ props !! "encoding" = Some v ∧ isString v = false ∧ v ≠ VNull)
  ∧ (props !! "encoding" = Some v ∧ isString v = false ∧ v ≠ VNull →
     (validate opts (VObject ClsObject props)).2
     = Some (TypeError (format "0qh7n,Ny" [VString "encoding"; v])))
  ∧ (props !! "encoding" = Some v → isString v = true ∨ v = VNull →
     (validate opts (VObject ClsObject props)).1 !! "encoding" = Some v
     ∧ (validate opts (VObject ClsObject props)).2
       = (validate opts (VObject ClsObject (delete "encoding" props))).2
     ∧ ((∀ c, c ∈ checked_fields → ck_key c ≠ "encoding" → field_passes props c) →
        (validate opts (VObject ClsObject props)).2 = None))
  ∧ (props !! "encoding" = Some v →
     (∀ c, c ∈ checked_fields → ck_key c ≠ "encoding" → field_passes props c) →
     ((validate opts (VObject ClsObject props)).2 = None
      ↔ isString v = true ∨ v = VNull)).
Proof.
  intros Hsep Hmode.
  assert (props !! "encoding" = Some v ∧ isString v = false ∧ v ≠ VNull →
          (validate opts (VObject ClsObject props)).2
          = Some (TypeError (format "0qh7n,Ny" [VString "encoding"; v]))) as Hrej.
  { intros (Hk & Hstr & Hnull).
    rewrite (validate_fail opts props [sep_check; objectMode_check]
               encoding_check
               [highWaterMark_check; iter_check; siter_check] v); try done.
    - by repeat constructor.
    - simpl. rewrite Hstr. simpl. destruct (not_null v) eqn:Hnn; [done|].
      by apply not_null_false in Hnn. }
  assert (props !! "encoding" = Some v →
          (∀ c, c ∈ checked_fields → ck_key c ≠ "encoding" → field_passes props c) →
          ((validate opts (VObject ClsObject props)).2 = None
           ↔ isString v = true ∨ v = VNull)) as Hnull.
  { intros Hk Hothers.
    rewrite (only_field_accepts encoding_check props opts v
               encoding_check_checked Hothers Hk).
    simpl. apply encoding_passes. }
  split_and!; [|done| |done].
  - split; [|by eauto].
    intros [code Herr].
    destruct (validate_cases opts props)
      as [[Hall Heq]|(pre & c & post & w & Hcs & Hpre & Hk & Hw & Heq)];
      rewrite Heq in Herr; cbn [snd] in Herr; [done|].
    injection Herr as Hcode Hkey <-.
    assert (c ∈ checked_fields) as Hc.
    { rewrite Hcs. apply elem_of_app. right. apply list_elem_of_here. }
    rewrite (check_by_key c encoding_check Hc encoding_check_checked Hkey) in *.
    simpl in Hk, Hw. apply andb_prop in Hw as [Hstr Hnn].
    split_and!; [done|by apply negb_true_iff|].
    intros ->. done.
  - intros Hk Hok.
    assert (field_passes props encoding_check) as Henc.
    { intros w Hw. simpl in Hw. rewrite Hk in Hw. injection Hw as <-.
      simpl. by apply encoding_passes. }
    split_and!.
    + destruct (validate_cases opts props)
        as [[Hall ->]|(pre & c & post & w & Hcs & Hpre & Hkc & Hw & ->)];
        cbn [fst].
      * apply copy_keys_present; [|done].
        apply checked_keys_recognized.
        apply (list_elem_of_fmap_2 ck_key _ _ encoding_check_checked).
      * apply copy_keys_present; [|done].
        unfold checked_fields in Hcs.
        destruct pre as [|p1 [|p2 [|p3 pre]]]; simpl in Hcs.
        -- injection Hcs as <- _. specialize (Hsep w Hkc). congruence.
        -- injection Hcs as <- <- _. specialize (Hmode w Hkc). congruence.
        -- injection Hcs as <- <- <- _. specialize (Henc w Hkc). congruence.
        -- injection Hcs as <- <- <- _.
           rewrite fmap_app. apply elem_of_app. left. simpl.
           do 2 apply list_elem_of_further. apply list_elem_of_here.
    + rewrite !validate_result_run. apply run_checks_skip_passing.
      intros c Hc Hkey.
      by rewrite (check_by_key c encoding_check Hc encoding_check_checked Hkey).
    + intros Hothers. by apply (Hnull Hk Hothers).
Qed.

Lemma encoding_rejected_iff_witness :
  (validate ∅ (VObject ClsObject encoding_undefined)).2
  = Some (TypeError (format "0qh7n,Ny" [VString "encoding"; VUndefined]))
  ∧ (validate ∅ (VObject ClsObject encoding_utf8)).1 !! "encoding"
    = Some (VString "utf8")
  ∧ (validate ∅ (VObject ClsObject encoding_utf8)).2
    = (validate ∅ (VObject ClsObject (delete "encoding" encoding_utf8))).2
  ∧ (validate ∅ (VObject ClsObject encoding_utf8)).2 = None.
Proof.
  assert (field_passes encoding_undefined sep_check) as Hsep1
    by (intros v Hv; vm_compute in Hv; by injection Hv as <-).
  assert (field_passes encoding_undefined objectMode_check) as Hmode1
    by (intros v Hv; vm_compute in Hv; discriminate).
  assert (field_passes encoding_utf8 sep_check) as Hsep2
    by (intros v Hv; vm_compute in Hv; by injection Hv as <-).
  assert (field_passes encoding_utf8 objectMode_check) as Hmode2
    by (intros v Hv; vm_compute in Hv; discriminate).
  pose proof (encoding_rejected_iff ∅ encoding_undefined VUndefined Hsep1 Hmode1)
    as (_ & Hrej & _).
  pose proof (encoding_rejected_iff ∅ encoding_utf8 (VString "utf8") Hsep2 Hmode2)
    as (_ & _ & Hacc & _).
  destruct (Hacc eq_refl (or_introl eq_refl)) as (Hwritten & Hsame & Hnull).
  split_and!; [|done|done|].
  - apply Hrej. split_and!; [reflexivity|reflexivity|discriminate].
  - apply Hnull. intros c Hc Hne v Hv. unfold checked_fields in Hc.
    repeat (apply elem_of_cons in Hc as [->|Hc]);
      try (by apply elem_of_nil in Hc); try done;
      vm_compute in Hv; first [discriminate | by injection Hv as <-].
Defined.

Example encoding_text_accepted :
  (validate ∅ (VObject ClsObject {["encoding" := VString "utf8"]})).2 = None.
Proof. vm_compute. reflexivity. Qed.

Example encoding_null_accepted :
  (validate ∅ (VObject ClsObject {["encoding" := VNull]})).2 = None.
Proof. vm_compute. reflexivity. Qed.

Example encoding_undefined_rejected :
  (validate ∅ (VObject ClsObject {["encoding" := VUndefined]})).2
  = Some (TypeError (format "0qh7n,Ny" [VString "encoding"; VUndefined])).
Proof. vm_compute. reflexivity. Qed.

Example encoding_boolean_rejected :
  (validate ∅ (VObject ClsObject {["encoding" := VBoolean true]})).2
  = Some (TypeError (format "0qh7n,Ny" [VString "encoding"; VBoolean true])).
Proof. vm_compute. reflexivity. Qed.

(** ** Shared generator state *)

Section gcopy_facts.
Implicit Types (x y : buffer) (n i : nat).

Lemma length_gcopy n x y : length (gcopy n x y) = length y.
Proof.
  induction n as [|n IH]; [done|]. cbn [gcopy].
  destruct (x !! n); [by rewrite length_insert|done].
Qed.

(** After the copy, the indices below [n] hold the elements of [x]. *)
Lemma gcopy_lookup n x y i :
  (n ≤ length x)%nat →
  gcopy n x y !! i
  = if decide (i < n ∧ i < length y)%nat then x !! i else y !! i.
Proof.
  induction n as [|n IH]; intros Hn.
  - cbn [gcopy]. destruct (decide _) as [[Hlt _]|_]; [lia|done].
  - cbn [gcopy]. destruct (lookup_lt_is_Some_2 x n) as [v Hv]; [lia|].
    rewrite Hv. destruct (decide (i = n)) as [->|Hne].
    + destruct (decide (n < length y)%nat) as [Hlt|Hge].
      * rewrite list_lookup_insert_eq by (by rewrite length_gcopy).
        rewrite decide_True by lia. done.
      * rewrite list_insert_ge by (rewrite length_gcopy; lia).
        rewrite IH by lia. rewrite !decide_False by lia. done.
    + rewrite list_lookup_insert_ne by done. rewrite IH by lia.
      destruct (decide (i < n ∧ i < length y)%nat),
        (decide (i < S n ∧ i < length y)%nat); try done; lia.
Qed.

(** Copying a buffer into one of the same length replaces its contents. *)
Lemma gcopy_same_length x y :
  length x = length y → gcopy (length x) x y = x.
Proof.
  intros Hlen. apply list_eq. intros i. rewrite gcopy_lookup by done.
  destruct (decide _) as [_|Hge]; [done|].
  rewrite !lookup_ge_None_2; [done|lia..].
Qed.
End gcopy_facts.

(** C4: when the state is shared ([copy = false]), [setState] with a
    buffer of the same length copies its contents element-wise into the
    shared buffer, so that every other holder of that reference reads the
    update; with a buffer of a different length it rebinds only this
    holder's reference, and every other holder still references the old
    buffer, which is unchanged. *)
Theorem shared_setState_by_length (h : store) (m other : manager) new nb cur :
  m_own m = Shared → m_copy m = false →
  m_state other = m_state m →
  h !! m_state m = Some cur → h !! new = Some nb →
  (length nb = length cur →
   ∃ h', setState m new h = Some (m, h')
         ∧ h' = <[m_state m := gcopy (length nb) nb cur]> h
         ∧ getState m h' = Some nb
         ∧ getState other h' = Some nb)
  ∧ (length nb ≠ length cur →
     ∃ m', setState m new h = Some (m', h)
           ∧ m_state m' = new
           ∧ getState m' h = Some nb
           ∧ m_state other = m_state m
           ∧ getState other h = Some cur).
Proof.
  intros Hown Hcopy Hother Hcur Hnew. unfold setState, getState.
  rewrite Hnew, Hcur, Hown, Hother. split; intros Hlen.
  - rewrite (proj2 (Nat.eqb_eq _ _) Hlen).
    eexists. split_and!; [done..| |]; rewrite lookup_insert_eq;
      by rewrite gcopy_same_length.
  - rewrite (proj2 (Nat.eqb_neq _ _) Hlen). unfold rebind. rewrite Hcopy.
    eexists. split_and!; done.
Qed.

Lemma shared_setState_by_length_witness :
  (length [7; 8; 9] = length [1; 2; 3] →
   ∃ h', setState (Manager 1 Shared false) 2 sample_store
         = Some (Manager 1 Shared false, h')
         ∧ h' = <[m_state (Manager 1 Shared false)
                  := gcopy (length [7; 8; 9]) [7; 8; 9] [1; 2; 3]]> sample_store
         ∧ getState (Manager 1 Shared false) h' = Some [7; 8; 9]
         ∧ getState (Manager 1 Shared false) h' = Some [7; 8; 9])
  ∧ (length [7; 8; 9] ≠ length [1; 2; 3] →
     ∃ m', setState (Manager 1 Shared false) 2 sample_store = Some (m', sample_store)
           ∧ m_state m' = 2%positive
           ∧ getState m' sample_store = Some [7; 8; 9]
           ∧ m_state (Manager 1 Shared false) = m_state (Manager 1 Shared false)
           ∧ getState (Manager 1 Shared false) sample_store = Some [1; 2; 3]).
Proof.
  apply (shared_setState_by_length sample_store (Manager 1 Shared false)
           (Manager 1 Shared false) 2%positive [7; 8; 9] [1; 2; 3]);
    reflexivity.
Defined.

Example shared_same_length :
  setState (Manager 1 Shared false) 2 sample_store
  = Some (Manager 1 Shared false, <[1%positive := [7; 8; 9]]> sample_store)
  ∧ getState (Manager 1 Shared false)
      (<[1%positive := [7; 8; 9]]> sample_store) = Some [7; 8; 9].
Proof. split; vm_compute; reflexivity. Qed.

Example shared_different_length :
  setState (Manager 1 Shared false) 3 sample_store
  = Some (Manager 3 Shared false, sample_store)
  ∧ getState (Manager 1 Shared false) sample_store = Some [1; 2; 3].
Proof. split; vm_compute; reflexivity. Qed.

(** ** Further properties of [validate] *)

(** Copying the same keys a second time changes nothing. *)
Lemma copy_keys_idemp ks (props opts : gmap string value) :
  copy_keys ks props (copy_keys ks props opts) = copy_keys ks props opts.
Proof.
  apply map_eq. intros k. rewrite !copy_keys_lookup. unfold copied.
  rewrite copy_keys_lookup. unfold copied.
  destruct (decide (k ∈ ks)); [|done]. by destruct (props !! k).
Qed.

(** The copies read [props] only at the keys copied. *)
Lemma copy_keys_ext ks (props1 props2 opts : gmap string value) :
  (∀ k, k ∈ ks → props1 !! k = props2 !! k) →
  copy_keys ks props1 opts = copy_keys ks props2 opts.
Proof.
  intros Hagree. apply map_eq. intros k. rewrite !copy_keys_lookup.
  destruct (decide (k ∈ ks)) as [Hin|]; [|done].
  unfold copied. by rewrite (Hagree k Hin).
Qed.

(** The checks read [props] only at the keys checked. *)
Lemma run_checks_ext cs (props1 props2 opts : gmap string value) :
  (∀ c, c ∈ cs → props1 !! ck_key c = props2 !! ck_key c) →
  run_checks cs props1 opts = run_checks cs props2 opts.
Proof.
  revert opts. induction cs as [|c cs IH]; intros opts Hagree; [done|].
  cbn [run_checks]. rewrite <- (Hagree c) by left.
  assert (∀ c', c' ∈ cs → props1 !! ck_key c' = props2 !! ck_key c') as Hrest
    by (intros c' Hc'; apply Hagree; by right).
  destruct (props1 !! ck_key c) as [v|]; [|by apply IH].
  destruct (ck_fails c v); [done|by apply IH].
Qed.

(** Whether a field passes is read off the value under its key. *)
Lemma field_passes_ext (props1 props2 : gmap string value) c :
  props1 !! ck_key c = props2 !! ck_key c →
  field_passes props1 c → field_passes props2 c.
Proof. unfold field_passes. intros Heq Hpass v Hv. apply Hpass. by rewrite Heq. Qed.

Lemma objectMode_check_checked : objectMode_check ∈ checked_fields.
Proof. unfold checked_fields. apply list_elem_of_further, list_elem_of_here. Qed.

Lemma highWaterMark_check_checked : highWaterMark_check ∈ checked_fields.
Proof. unfold checked_fields. do 3 apply list_elem_of_further. apply list_elem_of_here. Qed.

Lemma siter_check_checked : siter_check ∈ checked_fields.
Proof. unfold checked_fields. do 5 apply list_elem_of_further. apply list_elem_of_here. Qed.

(** Close a side condition "every other validated field passes" on a
    concrete options object. *)
#[local] Ltac others_pass :=
  let c := fresh "c" in let Hc := fresh "Hc" in
  let v := fresh "v" in let Hv := fresh "Hv" in
  intros c Hc ? v Hv; unfold checked_fields in Hc;
  repeat (apply elem_of_cons in Hc as [->|Hc]);
  try (by apply elem_of_nil in Hc); try done;
  vm_compute in Hv; first [discriminate | by injection Hv as <-].

(** X1: validating the same options a second time into the destination
    that the first call left gives the same destination and the same
    returned value. *)
Theorem validate_idempotent opts options :
  validate (validate opts options).1 options = validate opts options.
Proof.
  destruct (isObject options) eqn:Hobj.
  - apply isObject_true_inv in Hobj as [props ->].
    destruct (validate_cases opts props)
      as [[Hall ->]|(pre & c & post & v & Hcs & Hpre & Hk & Hv & ->)]; cbn [fst].
    + rewrite validate_pass by done. by rewrite copy_keys_idemp.
    + rewrite (validate_fail _ props pre c post v) by done.
      by rewrite copy_keys_idemp.
  - by rewrite !validate_not_plain.
Qed.

(** X2: the value [validate] returns does not depend on what the
    destination record holds. *)
Theorem validate_result_ignores_destination opts1 opts2 options :
  (validate opts1 options).2 = (validate opts2 options).2.
Proof.
  destruct (isObject options) eqn:Hobj.
  - apply isObject_true_inv in Hobj as [props ->].
    rewrite !validate_result_run. by apply run_checks_result_ext.
  - by rewrite !validate_not_plain.
Qed.

(** X3: when [validate] returns [null], the destination is the recognized
    part of [options] laid over the previous destination: every recognized
    key that [options] owns holds the value of [options], whatever it held
    before, and every other key is as it was. *)
Theorem validate_success_merges opts props :
  (validate opts (VObject ClsObject props)).2 = None →
  (validate opts (VObject ClsObject props)).1 = recognized_part props ∪ opts.
Proof.
  intros Hnull%validate_null_iff_pass. rewrite validate_pass by done.
  cbn [fst]. apply map_eq. intros k.
  rewrite copy_keys_lookup, lookup_union. unfold copied, recognized_part.
  destruct (decide (k ∈ recognized_keys)) as [Hin|Hout].
  - destruct (props !! k) as [v|] eqn:Hk.
    + rewrite (map_lookup_filter_Some_2 _ props k v) by done.
      by destruct (opts !! k).
    + rewrite (map_lookup_filter_None_2 _ props k) by (by left).
      by destruct (opts !! k).
  - rewrite (map_lookup_filter_None_2 _ props k).
    + by destruct (opts !! k).
    + right. intros v _. done.
Qed.

Lemma validate_success_merges_witness :
  (validate {["sep" := VString ";"]} (VObject ClsObject good_options)).1
  = recognized_part good_options ∪ {["sep" := VString ";"]}.
Proof.
  apply (validate_success_merges {["sep" := VString ";"]} good_options).
  vm_compute. reflexivity.
Defined.

(** X4: a destination whose validated fields satisfy their type conditions
    still does after a call of [validate] that returns [null]. *)
Theorem validate_preserves_valid opts props :
  spec_valid opts →
  (validate opts (VObject ClsObject props)).2 = None →
  spec_valid (validate opts (VObject ClsObject props)).1.
Proof.
  intros Hopts%checks_pass_iff_spec_valid Hnull%validate_null_iff_pass.
  apply checks_pass_iff_spec_valid. rewrite validate_pass by done. cbn [fst].
  apply Forall_forall. intros c Hc v.
  rewrite copy_keys_lookup. unfold copied.
  rewrite decide_True
    by (by apply checked_keys_recognized, list_elem_of_fmap_2).
  destruct (props !! ck_key c) as [w|] eqn:Hk.
  - intros [= <-]. by apply (proj1 (Forall_forall _ _) Hnull c Hc).
  - by apply (proj1 (Forall_forall _ _) Hopts c Hc).
Qed.

Lemma validate_preserves_valid_witness :
  spec_valid (validate {["sep" := VString ";"]} (VObject ClsObject good_options)).1.
Proof.
  apply (validate_preserves_valid {["sep" := VString ";"]} good_options).
  - apply checks_pass_iff_spec_valid, Forall_forall. intros c Hc v Hv.
    unfold checked_fields in Hc.
    repeat (apply elem_of_cons in Hc as [->|Hc]);
      try (by apply elem_of_nil in Hc);
      vm_compute in Hv; first [discriminate | by injection Hv as <-].
  - vm_compute. reflexivity.
Defined.

(** X5: a record produced by a successful [validate] from an empty
    destination validates again, and to itself. *)
Theorem validated_record_revalidates props opts' :
  validate ∅ (VObject ClsObject props) = (opts', None) →
  validate ∅ (VObject ClsObject opts') = (opts', None).
Proof.
  intros Hrun.
  assert ((validate ∅ (VObject ClsObject props)).2 = None) as Hnull
    by (by rewrite Hrun).
  apply validate_null_iff_pass in Hnull.
  rewrite validate_pass in Hrun by done.
  assert (opts' = copy_keys recognized_keys props ∅) as -> by congruence.
  clear Hrun. rewrite validate_pass.
  - f_equal. apply map_eq. intros k. rewrite !copy_keys_lookup.
    unfold copied. rewrite copy_keys_lookup. unfold copied.
    destruct (decide (k ∈ recognized_keys)); [|done].
    by destruct (props !! k).
  - apply Forall_forall. intros c Hc v. rewrite copy_keys_lookup.
    unfold copied. rewrite lookup_empty.
    destruct (decide _); [|done].
    destruct (props !! ck_key c) as [w|] eqn:Hk; [|done].
    intros [= <-]. by apply (proj1 (Forall_forall _ _) Hnull c Hc).
Qed.

Lemma validated_record_revalidates_witness :
  validate ∅ (VObject ClsObject (delete "extra" good_options))
  = (delete "extra" good_options, None).
Proof.
  apply (validated_record_revalidates good_options).
  vm_compute. reflexivity.
Defined.

(** X6: [validate] reads [options] only at the ten recognized keys: two
    option objects that agree on them give the same destination and the
    same returned value, so adding, changing or removing any other key
    changes nothing. *)
Theorem validate_reads_recognized_keys_only opts props1 props2 :
  (∀ k, k ∈ recognized_keys → props1 !! k = props2 !! k) →
  validate opts (VObject ClsObject props1) = validate opts (VObject ClsObject props2).
Proof.
  intros Hagree. rewrite !validate_plain.
  rewrite (run_checks_ext checked_fields props1 props2).
  - destruct (run_checks checked_fields props2 opts) as [o [e|]]; [done|].
    f_equal. apply copy_keys_ext. intros k Hk.
    by apply Hagree, passthrough_recognized.
  - intros c Hc. by apply Hagree, checked_keys_recognized, list_elem_of_fmap_2.
Qed.

Lemma validate_reads_recognized_keys_only_witness :
  validate ∅ (VObject ClsObject good_options)
  = validate ∅ (VObject ClsObject (delete "extra" good_options)).
Proof.
  apply (validate_reads_recognized_keys_only ∅ good_options
           (delete "extra" good_options)).
  intros k Hk. symmetry. apply lookup_delete_ne. intros <-.
  unfold recognized_keys, checked_keys, checked_fields, passthrough_fields in Hk.
  simpl in Hk. repeat (apply elem_of_cons in Hk as [Hk|Hk]; [discriminate|]).
  by apply elem_of_nil in Hk.
Defined.

(** X7: [validate] accepts [objectMode] if and only if it is a primitive
    boolean; anything else, a boxed [Boolean] object included, is rejected
    with the error naming [objectMode]. *)
Theorem objectMode_accepted_iff_boolean opts props v :
  props !! "objectMode" = Some v →
  (∀ c, c ∈ checked_fields → ck_key c ≠ "objectMode" → field_passes props c) →
  ((validate opts (VObject ClsObject props)).2 = None ↔ ∃ b, v = VBoolean b)
  ∧ ((validate opts (VObject ClsObject props)).2 ≠ None →
     (validate opts (VObject ClsObject props)).2
     = Some (TypeError (format "0qh2o,GE" [VString "objectMode"; v]))).
Proof.
  intros Hk Hothers. split.
  - rewrite (only_field_accepts objectMode_check props opts v
               objectMode_check_checked Hothers Hk).
    simpl. rewrite negb_false_iff. split.
    + destruct v; try done. eauto.
    + by intros [b ->].
  - apply (only_field_fails objectMode_check props opts v
             objectMode_check_checked Hothers Hk).
Qed.

Lemma objectMode_accepted_iff_boolean_witness :
  ((validate ∅ (VObject ClsObject stream_options)).2 = None
   ↔ ∃ b, VBoolean true = VBoolean b)
  ∧ ((validate ∅ (VObject ClsObject stream_options)).2 ≠ None →
     (validate ∅ (VObject ClsObject stream_options)).2
     = Some (TypeError (format "0qh2o,GE" [VString "objectMode"; VBoolean true]))).
Proof.
  apply (objectMode_accepted_iff_boolean ∅ stream_options (VBoolean true));
    [reflexivity | others_pass].
Defined.

Example objectMode_boxed_rejected :
  (validate ∅ (VObject ClsObject {["objectMode" := VObject ClsBoolean ∅]})).2
  = Some (TypeError (format "0qh2o,GE" [VString "objectMode"; VObject ClsBoolean ∅])).
Proof. vm_compute. reflexivity. Qed.

(** X8: [validate] accepts [highWaterMark] if and only if it is a number
    that is a zero of either sign, positive and finite, or positive
    infinity; NaN, negative numbers and non-numbers are rejected with the
    error naming [highWaterMark]. *)
Theorem highWaterMark_accepted_iff_nonnegative opts props v :
  props !! "highWaterMark" = Some v →
  (∀ c, c ∈ checked_fields → ck_key c ≠ "highWaterMark" → field_passes props c) →
  ((validate opts (VObject ClsObject props)).2 = None
   ↔ ∃ x, v = VNumber x
          ∧ ((∃ s, x = S754_zero s) ∨ x = S754_infinity false
             ∨ ∃ m e, x = S754_finite false m e))
  ∧ ((validate opts (VObject ClsObject props)).2 ≠ None →
     (validate opts (VObject ClsObject props)).2
     = Some (TypeError (format "0qh4k,I9" [VString "highWaterMark"; v]))).
Proof.
  intros Hk Hothers. split.
  - rewrite (only_field_accepts highWaterMark_check props opts v
               highWaterMark_check_checked Hothers Hk).
    simpl. rewrite negb_false_iff. apply isNonNegative_iff.
  - apply (only_field_fails highWaterMark_check props opts v
             highWaterMark_check_checked Hothers Hk).
Qed.

Lemma highWaterMark_accepted_iff_nonnegative_witness :
  ((validate ∅ (VObject ClsObject stream_options)).2 = None
   ↔ ∃ x, VNumber (num 64) = VNumber x
          ∧ ((∃ s, x = S754_zero s) ∨ x = S754_infinity false
             ∨ ∃ m e, x = S754_finite false m e))
  ∧ ((validate ∅ (VObject ClsObject stream_options)).2 ≠ None →
     (validate ∅ (VObject ClsObject stream_options)).2
     = Some (TypeError (format "0qh4k,I9" [VString "highWaterMark"; VNumber (num 64)]))).
Proof.
  apply (highWaterMark_accepted_iff_nonnegative ∅ stream_options (VNumber (num 64)));
    [reflexivity | others_pass].
Defined.

Example highWaterMark_infinite_accepted :
  (validate ∅ (VObject ClsObject {["highWaterMark" := VNumber (S754_infinity false)]})).2
  = None.
Proof. vm_compute. reflexivity. Qed.

Example highWaterMark_nan_rejected :
  (validate ∅ (VObject ClsObject {["highWaterMark" := VNumber S754_nan]})).2
  = Some (TypeError (format "0qh4k,I9" [VString "highWaterMark"; VNumber S754_nan])).
Proof. vm_compute. reflexivity. Qed.

(** X9: [validate] accepts the snapshot interval [siter] if and only if it
    is a positive integer; unlike [iter], a zero is rejected, as are
    negative, fractional and non-numeric values, with the error naming
    [siter]. *)
Theorem siter_accepted_iff_positive_integer opts props v :
  props !! "siter" = Some v →
  (∀ c, c ∈ checked_fields → ck_key c ≠ "siter" → field_passes props c) →
  ((validate opts (VObject ClsObject props)).2 = None
   ↔ ∃ x n, v = VNumber x ∧ denotes_int x n ∧ 0 < n)
  ∧ ((validate opts (VObject ClsObject props)).2 ≠ None →
     (validate opts (VObject ClsObject props)).2
     = Some (TypeError (format "0qh3P,Fv" [VString "siter"; v])))
  ∧ ((∃ s, v = VNumber (S754_zero s)) →
     (validate opts (VObject ClsObject props)).2
     = Some (TypeError (format "0qh3P,Fv" [VString "siter"; v]))).
Proof.
  intros Hk Hothers.
  pose proof (only_field_accepts siter_check props opts v
                siter_check_checked Hothers Hk) as Hacc.
  pose proof (only_field_fails siter_check props opts v
                siter_check_checked Hothers Hk) as Herr.
  split_and!.
  - rewrite Hacc. simpl. rewrite negb_false_iff. apply isPositiveInteger_iff.
  - done.
  - intros [s ->]. apply Herr. intros Hnull. apply Hacc in Hnull. done.
Qed.

Lemma siter_accepted_iff_positive_integer_witness :
  ((validate ∅ (VObject ClsObject stream_options)).2 = None
   ↔ ∃ x n, VNumber (num 10) = VNumber x ∧ denotes_int x n ∧ 0 < n)
  ∧ ((validate ∅ (VObject ClsObject stream_options)).2 ≠ None →
     (validate ∅ (VObject ClsObject stream_options)).2
     = Some (TypeError (format "0qh3P,Fv" [VString "siter"; VNumber (num 10)])))
  ∧ ((∃ s, VNumber (num 10) = VNumber (S754_zero s)) →
     (validate ∅ (VObject ClsObject stream_options)).2
     = Some (TypeError (format "0qh3P,Fv" [VString "siter"; VNumber (num 10)]))).
Proof.
  apply (siter_accepted_iff_positive_integer ∅ stream_options (VNumber (num 10)));
    [reflexivity | others_pass].
Defined.

Example siter_zero_rejected :
  (validate ∅ (VObject ClsObject {["siter" := VNumber (num 0)]})).2
  = Some (TypeError (format "0qh3P,Fv" [VString "siter"; VNumber (num 0)])).
Proof. vm_compute. reflexivity. Qed.

(** Every check fails on [undefined] and on every object. *)
Lemma check_fails_undefined_or_object c v :
  c ∈ checked_fields →
  v = VUndefined ∨ (∃ cl own, v = VObject cl own) →
  ck_fails c v = true.
Proof.
  unfold checked_fields. intros Hc Hv.
  repeat (apply elem_of_cons in Hc as [->|Hc]);
    try (by apply elem_of_nil in Hc);
    by destruct Hv as [->|(cl & own & ->)].
Qed.

(** X10: a validated key that [options] owns must hold a primitive other
    than [undefined]: if any of the six validated keys is present and
    holds [undefined] or an object (an array, a function, a boxed
    [String], [Number] or [Boolean]), [validate] returns a [TypeError]
    naming a validated field. *)
Theorem undefined_or_object_is_rejected opts props c v :
  c ∈ checked_fields →
  props !! ck_key c = Some v →
  v = VUndefined ∨ (∃ cl own, v = VObject cl own) →
  ∃ c' v', c' ∈ checked_fields ∧ props !! ck_key c' = Some v'
           ∧ (validate opts (VObject ClsObject props)).2 = Some (field_error c' v').
Proof.
  intros Hc Hk Hv.
  pose proof (check_fails_undefined_or_object c v Hc Hv) as Hfail.
  destruct (validate_cases opts props)
    as [[Hall _]|(pre & c0 & post & v0 & Hcs & Hpre & Hk0 & Hv0 & ->)].
  - pose proof (proj1 (Forall_forall _ _) Hall c Hc v Hk). congruence.
  - exists c0, v0. split_and!; [|done..].
    rewrite Hcs. apply elem_of_app. right. apply list_elem_of_here.
Qed.

Lemma undefined_or_object_is_rejected_witness :
  ∃ c' v', c' ∈ checked_fields ∧ iter_undefined !! ck_key c' = Some v'
           ∧ (validate ∅ (VObject ClsObject iter_undefined)).2
             = Some (field_error c' v').
Proof.
  apply (undefined_or_object_is_rejected ∅ iter_undefined iter_check VUndefined).
  - apply iter_check_checked.
  - reflexivity.
  - by left.
Defined.

Example iter_undefined_rejected :
  validate ∅ (VObject ClsObject iter_undefined)
  = (iter_undefined,
     Some (TypeError (format "0qh2t,G9" [VString "iter"; VUndefined]))).
Proof. vm_compute. reflexivity. Qed.

Example seed_undefined_copied :
  validate ∅ (VObject ClsObject {["seed" := VUndefined]})
  = ({["seed" := VUndefined]}, None).
Proof. vm_compute. reflexivity. Qed.
